(** * Odometer scanner: camera session, reading store and CSV export

    A shallow embedding of the two copies of the [OdometerOCRSystem]
    React component: [src/ocr.js] (module [Ocr]) and the second, unnamed
    copy (module [Part000]).  The component state, the two refs and the
    browser's media streams are one record; every handler is a function in
    a small state-and-exception monad whose third outcome, [Suspended], is
    the state observed at an [await] that has not settled. *)

From Stdlib Require Import ZArith NArith Ascii String DecimalString.
From Stdlib Require DecimalN.
From stdpp Require Import base list strings.

Local Open Scope string_scope.
Local Open Scope list_scope.

(** ** Browser objects *)

Inductive TrackState := live | ended.

Record MediaStreamTrack := mkTrack { kind : string; readyState : TrackState }.

(** A [MediaStream] is the list of its tracks; the browser's streams are
    kept in a store indexed by handle, so that two references to one stream
    see the same tracks. *)
Abbreviation MediaStream := (list MediaStreamTrack) (only parsing).
Abbreviation StreamId := nat (only parsing).

(** The [<video>] element behind [videoRef]. *)
Record Video := mkVideo {
  srcObject : option StreamId;
  videoWidth : N;
  videoHeight : N
}.

(** A thrown JavaScript value: [name] and [message] may be [undefined]. *)
Record Exn := mkExn { exn_name : option string; exn_message : option string }.

(** [new Error(msg)] *)
Definition Error (msg : string) : Exn := mkExn (Some "Error") (Some msg).

(** One stored capture: [{ id, reading, timestamp, imageSrc }]. *)
Record Reading := mkReading {
  id : Z;
  reading : N;
  timestamp : string;
  imageSrc : string
}.

(** The component: the six [useState] cells, the two [useRef] cells and the
    store of media streams handed out by [getUserMedia]. *)
Record Component := mkComponent {
  isScanning : bool;
  isProcessing : bool;
  capturedImage : option string;
  ocrResult : string;
  readings : list Reading;
  error : option string;
  videoRef : option Video;
  streamRef : option StreamId;
  streams : list MediaStream
}.

(** The component as first mounted: no preview element is rendered while
    [isScanning] is false. *)
Definition init : Component :=
  mkComponent false false None "" [] None None None [].

Definition set_isScanning (b : bool) (c : Component) : Component :=
  mkComponent b (isProcessing c) (capturedImage c) (ocrResult c) (readings c)
    (error c) (videoRef c) (streamRef c) (streams c).
Definition set_isProcessing (b : bool) (c : Component) : Component :=
  mkComponent (isScanning c) b (capturedImage c) (ocrResult c) (readings c)
    (error c) (videoRef c) (streamRef c) (streams c).
Definition set_capturedImage (i : option string) (c : Component) : Component :=
  mkComponent (isScanning c) (isProcessing c) i (ocrResult c) (readings c)
    (error c) (videoRef c) (streamRef c) (streams c).
Definition set_ocrResult (r : string) (c : Component) : Component :=
  mkComponent (isScanning c) (isProcessing c) (capturedImage c) r (readings c)
    (error c) (videoRef c) (streamRef c) (streams c).
Definition set_readings (rs : list Reading) (c : Component) : Component :=
  mkComponent (isScanning c) (isProcessing c) (capturedImage c) (ocrResult c) rs
    (error c) (videoRef c) (streamRef c) (streams c).
Definition set_error (e : option string) (c : Component) : Component :=
  mkComponent (isScanning c) (isProcessing c) (capturedImage c) (ocrResult c)
    (readings c) e (videoRef c) (streamRef c) (streams c).
Definition set_videoRef (v : option Video) (c : Component) : Component :=
  mkComponent (isScanning c) (isProcessing c) (capturedImage c) (ocrResult c)
    (readings c) (error c) v (streamRef c) (streams c).
Definition set_streamRef (s : option StreamId) (c : Component) : Component :=
  mkComponent (isScanning c) (isProcessing c) (capturedImage c) (ocrResult c)
    (readings c) (error c) (videoRef c) s (streams c).
Definition set_streams (h : list MediaStream) (c : Component) : Component :=
  mkComponent (isScanning c) (isProcessing c) (capturedImage c) (ocrResult c)
    (readings c) (error c) (videoRef c) (streamRef c) h.

(** [track.stop()] *)
Definition stop_track (t : MediaStreamTrack) : MediaStreamTrack :=
  mkTrack (kind t) ended.

(** [stream.getTracks().forEach(track => track.stop())] on the stream with
    handle [s]. *)
Definition stopTracks (s : StreamId) (h : list MediaStream) : list MediaStream :=
  alter (map stop_track) s h.

(** The stream [getUserMedia] resolves with: a new handle whose tracks are
    all live. *)
Definition newStream (kinds : list string) (h : list MediaStream)
  : StreamId * list MediaStream :=
  (List.length h, h ++ [map (fun k => mkTrack k live) kinds]).

Definition is_live (t : MediaStreamTrack) : bool :=
  match readyState t with live => true | ended => false end.

(** [MediaStream.active]: some track has not ended. *)
Definition stream_active (ms : MediaStream) : bool := existsb is_live ms.

(** The handles of the streams that still hold the camera. *)
Fixpoint active_from (i : StreamId) (h : list MediaStream) : list StreamId :=
  match h with
  | [] => []
  | ms :: h' =>
      if stream_active ms then i :: active_from (S i) h' else active_from (S i) h'
  end.

Definition active_streams (c : Component) : list StreamId :=
  active_from 0 (streams c).

(** Every stream that still holds the camera is the one [streamRef] names. *)
Definition no_orphan (c : Component) : Prop :=
  forall s, s ∈ active_streams c -> streamRef c = Some s.

(** The session is idle: nothing is scanning, no stream is referenced and
    the preview element, if mounted, has no stream attached. *)
Definition is_idle (c : Component) : Prop :=
  isScanning c = false /\ streamRef c = None /\
  match videoRef c with Some v => srcObject v = None | None => True end.

(** ** Outcomes of asynchronous steps *)

(** What an awaited promise has done by the time it is looked at. *)
Inductive Promise (A : Type) : Type :=
| Resolved (a : A)
| Rejected (e : Exn)
| Unsettled.
Arguments Resolved {A} a.
Arguments Rejected {A} e.
Arguments Unsettled {A}.

(** How a handler run ends: it returns, it throws, or it is still suspended
    at an [await]; each carries the component as it then is. *)
Inductive Completion (A : Type) : Type :=
| Returned (a : A) (c : Component)
| Threw (e : Exn) (c : Component)
| Suspended (c : Component).
Arguments Returned {A} a c.
Arguments Threw {A} e c.
Arguments Suspended {A} c.

Definition M (A : Type) : Type := Component -> Completion A.

Definition ret {A} (a : A) : M A := fun c => Returned a c.

Definition bind {A B} (m : M A) (k : A -> M B) : M B :=
  fun c =>
    match m c with
    | Returned a c' => k a c'
    | Threw e c' => Threw e c'
    | Suspended c' => Suspended c'
    end.

#[global] Instance M_ret : MRet M := @ret.
#[global] Instance M_bind : MBind M := fun A B k m => bind m k.

Definition modify (f : Component -> Component) : M unit :=
  fun c => Returned tt (f c).

Definition gets {A} (f : Component -> A) : M A := fun c => Returned (f c) c.

Definition throw {A} (e : Exn) : M A := fun c => Threw e c.

Definition await {A} (p : Promise A) : M A :=
  fun c =>
    match p with
    | Resolved a => Returned a c
    | Rejected e => Threw e c
    | Unsettled => Suspended c
    end.

Definition when (b : bool) (m : M unit) : M unit :=
  if b then m else ret tt.

(** [try { body } catch (err) { handler }] *)
Definition try_catch {A} (body : M A) (handler : Exn -> M A) : M A :=
  fun c =>
    match body c with
    | Threw e c' => handler e c'
    | r => r
    end.

(** [try { body } finally { fin }]: [fin] runs on return and on throw, and
    not while [body] is still suspended. *)
Definition try_finally {A} (body : M A) (fin : M unit) : M A :=
  fun c =>
    match body c with
    | Returned a c' => bind fin (fun _ => ret a) c'
    | Threw e c' => bind fin (fun _ => throw e) c'
    | Suspended c' => Suspended c'
    end.

(** The state a run ends or waits in. *)
Definition state_of {A} (r : Completion A) : Component :=
  match r with
  | Returned _ c => c
  | Threw _ c => c
  | Suspended c => c
  end.

(** ** Strings *)

Definition newline : ascii := "010"%char.

(** [Number.prototype.toString()] on a non-negative integer. *)
Definition toString (n : N) : string := NilZero.string_of_uint (N.to_uint n).

(** [arr.join(sep)] *)
Definition join (sep : string) (l : list string) : string := String.concat sep l.

(** A template literal's rendering of a possibly [undefined] string. *)
Definition interpolate (o : option string) : string :=
  match o with Some s => s | None => "undefined" end.

(** [s || dflt] for a possibly [undefined] string: the empty string is
    falsy too. *)
Definition or_default (o : option string) (dflt : string) : string :=
  match o with
  | Some EmptyString | None => dflt
  | Some s => s
  end.

(** ** What the environment does during one call *)

(** The first thing the preview element reports after a stream is bound to
    it, [t] milliseconds after the wait began: its metadata (with the decoded
    frame size), an error event, or nothing at all. *)
Inductive MediaEvent :=
| LoadedMetadata (t : N) (w h : N)
| ErrorEvent (t : N)
| Silence.

(** The environment of one [startCamera] call. *)
Record StartEnv := mkStartEnv {
  (** [None]: [navigator.mediaDevices.getUserMedia] is missing; otherwise
      what the promise of [getUserMedia] does, resolving with the kinds of
      the tracks of the new stream *)
  mediaDevices : option (Promise (list string));
  (** what the engine throws on a call through the missing API *)
  typeError : Exn;
  protocol : string;
  hostname : string;
  first_event : MediaEvent;
  (** the promise of [video.play()] *)
  play : Promise unit
}.

(** The environment of one [captureAndProcess] call. *)
Record CaptureEnv := mkCaptureEnv {
  (** the data URL that [toDataURL] returns for the frame the canvas steps
      draw *)
  frame : string;
  (** the awaited recognition step, resolving with the reading *)
  recognition : Promise N;
  (** [Date.now()] *)
  date_now : Z;
  (** [new Date().toLocaleString()] *)
  toLocaleString : string
}.

(** What the canvas steps of one capture do: they throw, or they draw the
    frame and the call goes on in the environment that holds its data URL. *)
Inductive CaptureRun :=
| CanvasThrows (e : Exn)
| CanvasDraws (env : CaptureEnv).

Coercion CanvasDraws : CaptureEnv >-> CaptureRun.

(** The browser hands out a new stream with tracks of the given kinds. *)
Definition allocate (kinds : list string) : M StreamId :=
  fun c =>
    let '(s, h) := newStream kinds (streams c) in
    Returned s (set_streams h c).

(** [navigator.mediaDevices.getUserMedia({ video: ... })], awaited. *)
Definition getUserMedia (env : StartEnv) : M StreamId :=
  match mediaDevices env with
  | None => throw (typeError env)
  | Some p => kinds ← await p; allocate kinds
  end.

(** [videoRef.current.srcObject = o] *)
Definition bind_srcObject (o : option StreamId) (c : Component) : Component :=
  match videoRef c with
  | Some v => set_videoRef (Some (mkVideo o (videoWidth v) (videoHeight v))) c
  | None => c
  end.

(** The element takes the decoded frame size when its metadata loads. *)
Definition set_dimensions (w h : N) (c : Component) : Component :=
  match videoRef c with
  | Some v => set_videoRef (Some (mkVideo (srcObject v) w h)) c
  | None => c
  end.

(** [[newReading, ...readings]], with [newReading] the record built from
    the clock, the recognised reading and the encoded frame. *)
Definition newReading (env : CaptureEnv) (simulatedReading : N)
    (imageData : string) : Reading :=
  mkReading (date_now env) simulatedReading (toLocaleString env) imageData.

(** The canvas steps of a capture: [createElement], [getContext],
    [drawImage] and [toDataURL]; what they throw leaves the handler where
    they stand in it. *)
Definition grabFrame (run : CaptureRun) : M CaptureEnv :=
  match run with
  | CanvasThrows e => throw e
  | CanvasDraws env => mret env
  end.

(** [`${r.timestamp},${r.reading}`] *)
Definition csv_row (r : Reading) : string :=
  timestamp r +:+ "," +:+ toString (reading r).

Definition csv_header : string := "Timestamp,Reading".

(** What [exportReadings] hands to the browser: the file name of the
    download and the text of the [Blob]. *)
Record Download := mkDownload { download : string; blob : string }.

(** ** [src/ocr.js] *)

Module Ocr.

(** The wait for the first frame: only [onloadedmetadata] resolves it
    and nothing rejects it.  The result is the time at which the promise
    settles and the frame size, or [None] when it never settles. *)
Definition firstFrame (ev : MediaEvent) : option (N * (N * N)) :=
  match ev with
  | LoadedMetadata t w h => Some (t, (w, h))
  | ErrorEvent _ | Silence => None
  end.

Definition awaitMetadata (env : StartEnv) : M unit :=
  match firstFrame (first_event env) with
  | Some (_, (w, h)) => modify (set_dimensions w h)
  | None => await Unsettled
  end.

(** The [try] block of [startCamera]. *)
Definition startCamera_try (env : StartEnv) : M unit :=
  modify (set_error None);;
  stream ← getUserMedia env;
  modify (set_streamRef (Some stream));;
  v ← gets videoRef;
  match v with
  | Some _ =>
      modify (bind_srcObject (Some stream));;
      awaitMetadata env;;
      await (play env);;
      modify (set_isScanning true)
  | None => throw (Error "Video element not initialized")
  end.

(** The [catch] block of [startCamera]. *)
Definition startCamera_catch (err : Exn) : M unit :=
  modify (set_error
            (Some ("Error accessing camera: " +:+ interpolate (exn_message err))));;
  modify (set_isScanning false).

Definition startCamera (env : StartEnv) : M unit :=
  try_catch (startCamera_try env) startCamera_catch.

Definition stopCamera (c : Component) : Component :=
  let c :=
    match streamRef c with
    | Some s => set_streamRef None (set_streams (stopTracks s (streams c)) c)
    | None => c
    end in
  let c := bind_srcObject None c in
  set_isScanning false c.

Definition captureAndProcess (run : CaptureRun) : M unit :=
  v ← gets videoRef;
  match v with
  | None => mret tt
  | Some _ =>
      (* the [readings] this render's handler closed over *)
      readings0 ← gets readings;
      modify (set_isProcessing true);;
      env ← grabFrame run;
      let imageData := frame env in
      modify (set_capturedImage (Some imageData));;
      try_catch
        (simulatedReading ← await (recognition env);
         modify (set_ocrResult (toString simulatedReading));;
         modify (set_readings
                   (newReading env simulatedReading imageData :: readings0)))
        (fun err =>
           modify (set_error (Some "Error processing image - please try again")));;
      modify (set_isProcessing false);;
      modify stopCamera
  end.

Definition deleteReading (i : Z) (c : Component) : Component :=
  set_readings (filter (fun r => id r ≠ i) (readings c)) c.

Definition exportReadings (c : Component) : Download :=
  let csv := join (String newline EmptyString) (map csv_row (readings c)) in
  mkDownload "odometer-readings.csv"
    (csv_header +:+ String newline EmptyString +:+ csv).

End Ocr.

(** ** The second copy of the component *)

Module Part000.

Definition timeout_ms : N := 5000.

(** The wait for the first frame: [onloadedmetadata] resolves it,
    [onerror] rejects it with the event, and the timer rejects it after
    [timeout_ms]; whichever comes first settles it.  The result is the
    time at which the promise settles and how. *)
Definition firstFrame (ev : MediaEvent) : N * (Exn + N * N) :=
  match ev with
  | LoadedMetadata t w h =>
      if (t <? timeout_ms)%N then (t, inr (w, h))
      else (timeout_ms, inl (Error "Video stream timed out"))
  | ErrorEvent t =>
      if (t <? timeout_ms)%N then (t, inl (mkExn None None))
      else (timeout_ms, inl (Error "Video stream timed out"))
  | Silence => (timeout_ms, inl (Error "Video stream timed out"))
  end.

Definition awaitMetadata (env : StartEnv) : M unit :=
  match snd (firstFrame (first_event env)) with
  | inr (w, h) => modify (set_dimensions w h)
  | inl e => throw e
  end.

Definition name_is (err : Exn) (n : string) : bool :=
  match exn_name err with
  | Some s => String.eqb s n
  | None => false
  end.

(** The message the [catch] block of [startCamera] builds. *)
Definition errorMessage (err : Exn) : string :=
  "Error accessing camera: " +:+
  (if name_is err "NotAllowedError"
   then "Camera permission denied. Please allow camera access."
   else if name_is err "NotFoundError"
   then "No camera found on this device."
   else if name_is err "NotReadableError"
   then "Camera is already in use by another application."
   else or_default (exn_message err) "Unknown error occurred").

(** [if (streamRef.current) streamRef.current.getTracks().forEach(...)] *)
Definition releaseTracks (c : Component) : Component :=
  match streamRef c with
  | Some s => set_streams (stopTracks s (streams c)) c
  | None => c
  end.

(** [!navigator.mediaDevices?.getUserMedia] *)
Definition apiMissing (env : StartEnv) : bool :=
  match mediaDevices env with None => true | Some _ => false end.

(** [protocol !== 'https:' && hostname !== 'localhost'] *)
Definition insecure (env : StartEnv) : bool :=
  negb (String.eqb (protocol env) "https:")
  && negb (String.eqb (hostname env) "localhost").

(** The [try] block of [startCamera]. *)
Definition startCamera_try (env : StartEnv) : M unit :=
  modify (set_error None);;
  modify (set_capturedImage None);;
  modify (set_ocrResult "");;
  when (apiMissing env)
    (throw (Error "Camera API is not supported in this browser"));;
  when (insecure env)
    (throw (Error "Camera access requires HTTPS (except on localhost)"));;
  modify releaseTracks;;
  stream ← getUserMedia env;
  modify (set_streamRef (Some stream));;
  v ← gets videoRef;
  match v with
  | None => throw (Error "Video element not found")
  | Some _ =>
      modify (bind_srcObject (Some stream));;
      awaitMetadata env;;
      await (play env);;
      modify (set_isScanning true)
  end.

(** The [catch] block of [startCamera]. *)
Definition startCamera_catch (err : Exn) : M unit :=
  modify (set_error (Some (errorMessage err)));;
  modify (set_isScanning false);;
  modify (fun c =>
            match streamRef c with
            | Some _ => set_streamRef None (releaseTracks c)
            | None => c
            end);;
  modify (bind_srcObject None).

Definition startCamera (env : StartEnv) : M unit :=
  try_catch (startCamera_try env) startCamera_catch.

Definition stopCamera (c : Component) : Component :=
  let c :=
    match streamRef c with
    | Some s => set_streamRef None (set_streams (stopTracks s (streams c)) c)
    | None => c
    end in
  let c := bind_srcObject None c in
  set_isScanning false c.

(** [!videoRef.current || !videoRef.current.videoWidth] *)
Definition notReady (c : Component) : bool :=
  match videoRef c with
  | None => true
  | Some v => (videoWidth v =? 0)%N
  end.

Definition captureAndProcess (run : CaptureRun) : M unit :=
  nr ← gets notReady;
  if (nr : bool) then modify (set_error (Some "Camera not ready. Please try again."))
  else
    try_finally
      (try_catch
         (modify (set_isProcessing true);;
          modify (set_error None);;
          env ← grabFrame run;
          let imageData := frame env in
          modify (set_capturedImage (Some imageData));;
          simulatedReading ← await (recognition env);
          modify (set_ocrResult (toString simulatedReading));;
          modify (fun c =>
                    set_readings
                      (newReading env simulatedReading imageData :: readings c) c))
         (fun err =>
            modify (set_error
                      (Some ("Failed to capture and process image: " +:+
                             or_default (exn_message err) "Unknown error")))))
      (modify (set_isProcessing false);;
       modify stopCamera).

Definition deleteReading (i : Z) (c : Component) : Component :=
  set_readings (filter (fun r => id r ≠ i) (readings c)) c.

(** [iso] is [new Date().toISOString()]. *)
Definition exportReadings (iso : string) (c : Component) : Download :=
  let csv :=
    fold_left (fun csv r => csv ++ [csv_row r]) (readings c) [csv_header] in
  mkDownload ("odometer-readings-" +:+ iso +:+ ".csv")
    (join (String newline EmptyString) csv).

End Part000.

(** ** Lines of a text *)

(** The pieces of [s] between occurrences of [c]. *)
Fixpoint split_on (c : ascii) (s : string) : list string :=
  match s with
  | EmptyString => [EmptyString]
  | String a s' =>
      if Ascii.eqb a c then EmptyString :: split_on c s'
      else
        match split_on c s' with
        | seg :: segs => String a seg :: segs
        | [] => [String a EmptyString]
        end
  end.

(** The lines of a text: a line ends at a line break or at the end of the
    text, so a final line break does not open one more line. *)
Definition lines (s : string) : list string :=
  let segs := split_on newline s in
  match last segs with
  | Some EmptyString => removelast segs
  | _ => segs
  end.

Fixpoint has_char (c : ascii) (s : string) : bool :=
  match s with
  | EmptyString => false
  | String a s' => Ascii.eqb a c || has_char c s'
  end.

(** A string without a line break. *)
Definition single_line (s : string) : Prop := has_char newline s = false.

(** A component that is scanning with a decoded preview. *)
Definition scanning_ready : Component :=
  mkComponent true false None "" [] None
    (Some (mkVideo (Some 0) 1280 720)) (Some 0)
    [[mkTrack "video" live]].

(** ** Sessions *)

(** The stream with handle [s] still holds the camera. *)
Definition holds_camera (h : list MediaStream) (s : StreamId) : Prop :=
  exists ms, h !! s = Some ms /\ stream_active ms = true.

(** The tracks of the stream with handle [s] have all ended. *)
Definition released (h : list MediaStream) (s : StreamId) : Prop :=
  exists ms, h !! s = Some ms /\ Forall (fun t => readyState t = ended) ms.

(** One user action on the session. *)
Inductive Action :=
| Start (env : StartEnv)
| Stop.

(** A sequence of actions, each begun when the one before has finished,
    for a given pair of handlers.  A start that is still waiting ends the
    sequence: the result is the state it waits in, and no later action is
    run on top of it. *)
Fixpoint run (start : StartEnv -> M unit) (stop : Component -> Component)
    (acts : list Action) (c : Component) : Component :=
  match acts with
  | [] => c
  | Start env :: acts' =>
      match start env c with
      | Returned _ c' => run start stop acts' c'
      | Threw _ c' => run start stop acts' c'
      | Suspended c' => c'
      end
  | Stop :: acts' => run start stop acts' (stop c)
  end.



(** ** Scans *)






(** ** Sample environments and states *)

(** A secure page with one camera that delivers its first frame after
    120 ms. *)
Definition camera_ok : StartEnv :=
  mkStartEnv (Some (Resolved ["video"]))
    (mkExn (Some "TypeError") (Some "navigator.mediaDevices is undefined"))
    "https:" "example.org" (LoadedMetadata 120 1280 720) (Resolved tt).

(** The same camera, but the preview never reports a frame. *)
Definition camera_silent : StartEnv :=
  mkStartEnv (Some (Resolved ["video"]))
    (mkExn (Some "TypeError") (Some "navigator.mediaDevices is undefined"))
    "https:" "example.org" Silence (Resolved tt).

(** The same camera, but the browser refuses to start playback. *)
Definition camera_play_rejected : StartEnv :=
  mkStartEnv (Some (Resolved ["video"]))
    (mkExn (Some "TypeError") (Some "navigator.mediaDevices is undefined"))
    "https:" "example.org" (LoadedMetadata 120 1280 720)
    (Rejected (mkExn (Some "AbortError") (Some "The play() request was interrupted"))).

(** The component with its preview element mounted and nothing decoded. *)
Definition mounted : Component :=
  set_videoRef (Some (mkVideo None 0 0)) init.


(** A capture whose clock reads 1000 and whose recognition yields 42. *)
Definition capture_42 : CaptureEnv :=
  mkCaptureEnv "data:image/jpeg;base64,AA" (Resolved 42%N) 1000
    "11/1/2026, 6:31:00 PM".

(** Unfolds the monad, leaving the handler's case analysis. *)
Ltac unfold_js :=
  cbv [mbind M_bind bind mret M_ret ret gets modify throw await when
       try_catch try_finally grabFrame state_of].

(** ** Mount and unmount *)

(** The environment of the support check that [src/ocr.js] runs on mount. *)
Record SupportEnv := mkSupportEnv {
  (** [navigator.mediaDevices && navigator.mediaDevices.getUserMedia] *)
  cameraApi : bool;
  page_protocol : string;
  page_hostname : string;
  (** the promise of [enumerateDevices()], resolving with the kinds of the
      devices *)
  enumerateDevices : Promise (list string)
}.

(** [protocol !== 'https:' && hostname !== 'localhost'] *)
Definition pageInsecure (env : SupportEnv) : bool :=
  negb (String.eqb (page_protocol env) "https:")
  && negb (String.eqb (page_hostname env) "localhost").

(** [checkCameraSupport] of [src/ocr.js]. *)
Definition checkCameraSupport (env : SupportEnv) : M unit :=
  try_catch
    (when (negb (cameraApi env))
       (throw (Error "Camera API is not supported in this browser"));;
     when (pageInsecure env)
       (throw (Error "Camera access requires HTTPS (except on localhost)"));;
     devices ← await (enumerateDevices env);
     let videoDevices := filter (fun k : string => k = "videoinput") devices in
     when (Nat.eqb (List.length videoDevices) 0)
       (throw (Error "No camera devices found")))
    (fun err =>
       modify (set_error
                 (Some ("Camera initialization error: " +:+
                        interpolate (exn_message err))))).

(** The cleanup that the mount effect of the second copy returns, run
    when the component unmounts. *)
Definition unmountCleanup (c : Component) : Component :=
  match streamRef c with
  | Some s => set_streams (stopTracks s (streams c)) c
  | None => c
  end.

(** ** What the component renders *)

(** [isScanning ? <video ref={videoRef} .../> : ...]: after a render the
    ref holds the preview element exactly when [isScanning] is set; a
    newly mounted element has no stream and no decoded frame. *)
Definition commit (c : Component) : Component :=
  if isScanning c then
    match videoRef c with
    | Some _ => c
    | None => set_videoRef (Some (mkVideo None 0 0)) c
    end
  else set_videoRef None c.

(** [!isScanning ? <button onClick={startCamera} disabled={isProcessing}>] *)
Definition startEnabled (c : Component) : bool :=
  negb (isScanning c) && negb (isProcessing c).

(** The capture and stop buttons of the other branch, same [disabled]. *)
Definition scanControlsEnabled (c : Component) : bool :=
  isScanning c && negb (isProcessing c).

(** [readings.length > 0 && ... onClick={exportReadings}] *)
Definition exportOffered (c : Component) : bool :=
  negb (Nat.eqb (List.length (readings c)) 0).

(** One click on a control of the page. *)
Inductive Click :=
| ClickStart (env : StartEnv)
| ClickCapture (run : CaptureRun)
| ClickStop
| ClickDelete (i : Z).

(** A click runs its handler when the control is rendered and enabled (a
    delete button exists for each stored reading), and the component is
    rendered again; a handler that is still waiting contributes the state it
    waits in. *)
Definition click (start : StartEnv -> M unit) (capture : CaptureRun -> M unit)
    (stop : Component -> Component) (delete : Z -> Component -> Component)
    (k : Click) (c : Component) : Component :=
  match k with
  | ClickStart env =>
      if startEnabled c then commit (state_of (start env c)) else c
  | ClickCapture r =>
      if scanControlsEnabled c then commit (state_of (capture r c)) else c
  | ClickStop =>
      if scanControlsEnabled c then commit (stop c) else c
  | ClickDelete i =>
      if bool_decide (i ∈ map id (readings c)) then commit (delete i c) else c
  end.

Definition clicks (start : StartEnv -> M unit) (capture : CaptureRun -> M unit)
    (stop : Component -> Component) (delete : Z -> Component -> Component)
    (ks : list Click) (c : Component) : Component :=
  fold_left (fun c k => click start capture stop delete k c) ks c.

(** A session that is not scanning, rendered: the preview element is not
    mounted and nothing is being processed. *)
Definition at_rest (c : Component) : Prop :=
  isScanning c = false /\ isProcessing c = false /\ videoRef c = None.

(** ** Fields of a row *)

Definition comma : ascii := ","%char.

Fixpoint count_char (c : ascii) (s : string) : nat :=
  match s with
  | EmptyString => 0
  | String a s' => (if Ascii.eqb a c then 1 else 0) + count_char c s'
  end.

(** Closes an equivalence whose two sides are both impossible. *)
Ltac no_success :=
  split;
  [ discriminate
  | let H := fresh in
    intros H;
    repeat match type of H with
           | ex _ => destruct H as [? H]
           | _ /\ _ => destruct H as [? H]
           end;
    simplify_eq; try lia ].

(** * Properties *)

(** ** Text lemmas *)

Section Text.

Lemma has_char_app c (s t : string) :
  has_char c (s +:+ t) = has_char c s || has_char c t.
Proof.
  induction s as [|a s IH]; simpl; [done|].
  rewrite IH. by rewrite orb_assoc.
Qed.

Lemma single_line_app (s t : string) :
  single_line s -> single_line t -> single_line (s +:+ t).
Proof.
  unfold single_line. intros Hs Ht. by rewrite has_char_app, Hs, Ht.
Qed.

Lemma digits_single_line (d : Decimal.uint) :
  single_line (NilEmpty.string_of_uint d).
Proof. induction d; simpl; done. Qed.

Lemma toString_single_line (n : N) : single_line (toString n).
Proof.
  unfold toString, NilZero.string_of_uint.
  destruct (N.to_uint n) eqn:E; try apply digits_single_line. done.
Qed.

Lemma csv_row_single_line (r : Reading) :
  single_line (timestamp r) -> single_line (csv_row r).
Proof.
  intros H. unfold csv_row.
  apply single_line_app; [done|].
  apply single_line_app; [done|]. apply toString_single_line.
Qed.

Lemma csv_row_nonempty (r : Reading) : csv_row r <> EmptyString.
Proof.
  unfold csv_row. destruct (timestamp r); simpl; discriminate.
Qed.

Lemma split_on_single_line (s : string) :
  single_line s -> split_on newline s = [s].
Proof.
  unfold single_line. induction s as [|a s IH]; simpl; [done|].
  intros H. apply orb_false_iff in H as [Ha Hs].
  rewrite Ha, (IH Hs). done.
Qed.

Lemma split_on_break (s t : string) :
  single_line s ->
  split_on newline (s +:+ String newline t) = s :: split_on newline t.
Proof.
  unfold single_line. induction s as [|a s IH]; simpl; [done|].
  intros H. apply orb_false_iff in H as [Ha Hs].
  rewrite Ha, (IH Hs). done.
Qed.

Lemma split_on_join (x : string) (l : list string) :
  Forall single_line (x :: l) ->
  split_on newline (join (String newline EmptyString) (x :: l)) = x :: l.
Proof.
  revert x. induction l as [|y l IH]; intros x H.
  - simpl. apply split_on_single_line. by inversion H.
  - inversion H as [|? ? Hx Hl]; subst.
    change (join (String newline "") (x :: y :: l))
      with (x +:+ String newline (join (String newline "") (y :: l))).
    rewrite split_on_break by done. by rewrite IH.
Qed.

Lemma lines_join (x : string) (l : list string) :
  Forall single_line (x :: l) ->
  last (x :: l) <> Some EmptyString ->
  lines (join (String newline EmptyString) (x :: l)) = x :: l.
Proof.
  intros H Hlast. unfold lines. rewrite split_on_join by done.
  destruct (last (x :: l)) as [[|]|] eqn:E; done.
Qed.

Lemma lines_header_only (x : string) :
  single_line x ->
  lines (x +:+ String newline EmptyString) = [x].
Proof.
  intros H. unfold lines. rewrite split_on_break by done. done.
Qed.

Lemma push_all {A B} (f : A -> B) (l : list A) (acc : list B) :
  fold_left (fun csv r => csv ++ [f r]) l acc = acc ++ map f l.
Proof.
  revert acc. induction l as [|a l IH]; intros acc; simpl.
  - by rewrite app_nil_r.
  - rewrite IH. by rewrite <- app_assoc.
Qed.

Lemma string_app_empty_r (s : string) : s +:+ EmptyString = s.
Proof.
  induction s as [|a s IH]; [done|].
  change (String a (s +:+ EmptyString) = String a s). by rewrite IH.
Qed.

End Text.

(** ** The reading store *)

Section Store.

Lemma last_rows_nonempty (x : string) (rs : list Reading) :
  x <> EmptyString ->
  last (x :: map csv_row rs) <> Some EmptyString.
Proof.
  revert x. induction rs as [|r rs IH]; intros x Hx.
  - simpl. congruence.
  - change (last (x :: map csv_row (r :: rs)))
      with (last (csv_row r :: map csv_row rs)).
    apply IH, csv_row_nonempty.
Qed.

Lemma rows_single_line (rs : list Reading) :
  Forall (fun r => single_line (timestamp r)) rs ->
  Forall single_line (csv_header :: map csv_row rs).
Proof.
  intros H. constructor; [done|].
  induction H; simpl; constructor; auto using csv_row_single_line.
Qed.

Lemma ocr_blob (c : Component) :
  blob (Ocr.exportReadings c) =
  match readings c with
  | [] => csv_header +:+ String newline EmptyString
  | _ => join (String newline EmptyString) (csv_header :: map csv_row (readings c))
  end.
Proof. unfold Ocr.exportReadings. by destruct (readings c). Qed.

Lemma part000_blob (iso : string) (c : Component) :
  blob (Part000.exportReadings iso c) =
  join (String newline EmptyString) (csv_header :: map csv_row (readings c)).
Proof. unfold Part000.exportReadings. simpl. by rewrite push_all. Qed.

Lemma set_readings_same (c : Component) : set_readings (readings c) c = c.
Proof. by destruct c. Qed.

Lemma filter_absent (i : Z) (rs : list Reading) :
  i ∉ map id rs -> filter (fun r => id r ≠ i) rs = rs.
Proof.
  induction rs as [|r rs IH]; intros H; [done|].
  simpl in H. apply not_elem_of_cons in H as [Hr Hrs].
  rewrite filter_cons_True by congruence. by rewrite IH.
Qed.

End Store.

(** When no timestamp holds a line break, the lines of the exported text
    are the header and the rows. *)
Lemma export_lines_single_line (iso : string) (c : Component) :
  Forall (fun r => single_line (timestamp r)) (readings c) ->
  lines (blob (Ocr.exportReadings c)) = csv_header :: map csv_row (readings c) /\
  lines (blob (Part000.exportReadings iso c)) = csv_header :: map csv_row (readings c).
Proof.
  intros H. split.
  - rewrite ocr_blob. destruct (readings c) as [|r rs] eqn:E.
    + by apply lines_header_only.
    + apply lines_join; [by apply rows_single_line|].
      by apply last_rows_nonempty.
  - rewrite part000_blob.
    apply lines_join; [by apply rows_single_line|]. by apply last_rows_nonempty.
Qed.

(** C6: the text either copy exports for a list of N records is made of
    N+1 lines joined by line breaks: the header [Timestamp,Reading], then for
    each record, in the order of the list, its timestamp, a comma and its
    reading in decimal.  [src/ocr.js] ends the header with a line break when
    the list is empty.  Read back line by line, a text whose timestamps hold
    no line break gives these N+1 lines. *)
Theorem export_text_lines (iso : string) (c : Component) :
  blob (Part000.exportReadings iso c)
  = String.concat (String "010"%char EmptyString)
      ("Timestamp,Reading"
       :: map (fun r => timestamp r +:+ "," +:+
                        NilZero.string_of_uint (N.to_uint (reading r)))
            (readings c)) /\
  blob (Ocr.exportReadings c)
  = String.concat (String "010"%char EmptyString)
      ("Timestamp,Reading"
       :: map (fun r => timestamp r +:+ "," +:+
                        NilZero.string_of_uint (N.to_uint (reading r)))
            (readings c))
    +:+ (match readings c with
         | [] => String "010"%char EmptyString
         | _ => EmptyString
         end) /\
  length ("Timestamp,Reading"
          :: map (fun r => timestamp r +:+ "," +:+
                           NilZero.string_of_uint (N.to_uint (reading r)))
               (readings c)) = S (length (readings c)) /\
  (Forall (fun r => single_line (timestamp r)) (readings c) ->
   lines (blob (Part000.exportReadings iso c))
   = "Timestamp,Reading"
     :: map (fun r => timestamp r +:+ "," +:+
                      NilZero.string_of_uint (N.to_uint (reading r)))
          (readings c) /\
   lines (blob (Ocr.exportReadings c))
   = "Timestamp,Reading"
     :: map (fun r => timestamp r +:+ "," +:+
                      NilZero.string_of_uint (N.to_uint (reading r)))
          (readings c)).
Proof.
  split; [apply part000_blob|]. split; [|split].
  - rewrite ocr_blob. destruct (readings c) as [|r rs]; [done|].
    by rewrite string_app_empty_r.
  - simpl. by rewrite length_map.
  - intros H. destruct (export_lines_single_line iso c H) as [Ho Hp]. done.
Qed.

Lemma export_text_lines_witness :
  blob (Ocr.exportReadings
          (set_readings [mkReading 2500 7 "11/1/2026, 6:31:02 PM" "data:b";
                         mkReading 1000 42 "11/1/2026, 6:31:00 PM" "data:a"] init))
  = "Timestamp,Reading" +:+ String "010"%char
      ("11/1/2026, 6:31:02 PM,7" +:+ String "010"%char "11/1/2026, 6:31:00 PM,42") /\
  lines (blob (Ocr.exportReadings
                 (set_readings [mkReading 2500 7 "11/1/2026, 6:31:02 PM" "data:b";
                                mkReading 1000 42 "11/1/2026, 6:31:00 PM" "data:a"] init)))
  = ["Timestamp,Reading"; "11/1/2026, 6:31:02 PM,7"; "11/1/2026, 6:31:00 PM,42"].
Proof.
  destruct (export_text_lines ""
              (set_readings [mkReading 2500 7 "11/1/2026, 6:31:02 PM" "data:b";
                             mkReading 1000 42 "11/1/2026, 6:31:00 PM" "data:a"] init))
    as (_ & Ho & _ & Hl).
  split.
  - rewrite Ho. reflexivity.
  - apply Hl. repeat constructor.
Defined.

(** C9: deleting an identifier that no record has leaves the component, and
    so the list, exactly as it was; the handler is a total function and
    raises nothing. *)
Theorem delete_absent (i : Z) (c : Component) :
  i ∉ map id (readings c) ->
  Ocr.deleteReading i c = c /\ Part000.deleteReading i c = c.
Proof.
  intros H. unfold Ocr.deleteReading, Part000.deleteReading.
  rewrite filter_absent by done. by rewrite set_readings_same.
Qed.

Lemma delete_absent_witness :
  Ocr.deleteReading 7 (set_readings [mkReading 1000 42 "t" "d"] init)
  = set_readings [mkReading 1000 42 "t" "d"] init.
Proof.
  apply (delete_absent 7 (set_readings [mkReading 1000 42 "t" "d"] init)).
  simpl. intros H. apply list_elem_of_singleton in H. discriminate.
Defined.

(** C10: deleting [i] removes every record whose identifier is [i], however
    many there are, keeps every other record, and keeps the remaining
    records in the order they had. *)
Theorem delete_removes_all_keeps_order (i : Z) (c : Component) :
  Part000.deleteReading i c = Ocr.deleteReading i c /\
  Forall (fun r => id r ≠ i) (readings (Ocr.deleteReading i c)) /\
  sublist (readings (Ocr.deleteReading i c)) (readings c) /\
  (forall l1 r l2, readings c = l1 ++ r :: l2 -> id r ≠ i ->
     readings (Ocr.deleteReading i c) =
     readings (Ocr.deleteReading i (set_readings l1 c)) ++
     r :: readings (Ocr.deleteReading i (set_readings l2 c))).
Proof.
  split; [done|]. unfold Ocr.deleteReading. simpl.
  split; [|split].
  - apply Forall_forall. intros r Hr. by apply list_elem_of_filter in Hr as [? _].
  - apply sublist_filter.
  - intros l1 r l2 -> Hr. rewrite filter_app, filter_cons_True; done.
Qed.

Lemma delete_removes_all_keeps_order_witness :
  readings (Ocr.deleteReading 5
              (set_readings [mkReading 5 1 "a" ""; mkReading 7 2 "b" "";
                             mkReading 5 3 "c" ""; mkReading 9 4 "d" ""] init))
  = [mkReading 7 2 "b" ""; mkReading 9 4 "d" ""] /\
  sublist
    (readings (Ocr.deleteReading 5
                 (set_readings [mkReading 5 1 "a" ""; mkReading 7 2 "b" "";
                                mkReading 5 3 "c" ""; mkReading 9 4 "d" ""] init)))
    [mkReading 5 1 "a" ""; mkReading 7 2 "b" "";
     mkReading 5 3 "c" ""; mkReading 9 4 "d" ""].
Proof.
  split.
  - vm_compute. reflexivity.
  - apply (delete_removes_all_keeps_order 5
             (set_readings [mkReading 5 1 "a" ""; mkReading 7 2 "b" "";
                            mkReading 5 3 "c" ""; mkReading 9 4 "d" ""] init)).
Defined.

(** ** Evaluating handlers *)

Section Handlers.

Lemma ocr_stop_readings (c : Component) :
  readings (Ocr.stopCamera c) = readings c.
Proof.
  unfold Ocr.stopCamera, bind_srcObject.
  destruct (streamRef c); simpl; destruct (videoRef c); done.
Qed.

Lemma part000_stop_is_ocr_stop (c : Component) :
  Part000.stopCamera c = Ocr.stopCamera c.
Proof. done. Qed.

(** A capture whose recognition resolves puts the new record in front. *)
Lemma capture_appends_front (env : CaptureEnv) (c : Component) (r : N) :
  recognition env = Resolved r ->
  (Part000.notReady c = false ->
   readings (state_of (Part000.captureAndProcess env c))
   = newReading env r (frame env) :: readings c) /\
  (videoRef c <> None ->
   readings (state_of (Ocr.captureAndProcess env c))
   = newReading env r (frame env) :: readings c).
Proof.
  intros Hr. split.
  - intros Hready. unfold Part000.captureAndProcess. unfold_js.
    rewrite Hready, Hr. rewrite part000_stop_is_ocr_stop, ocr_stop_readings.
    done.
  - intros Hv. unfold Ocr.captureAndProcess. unfold_js.
    destruct (videoRef c) eqn:E; [|done]. rewrite Hr.
    by rewrite ocr_stop_readings.
Qed.

End Handlers.

(** ** The camera hardware *)

Section Hardware.

Lemma stopped_inactive (ms : MediaStream) :
  stream_active (map stop_track ms) = false.
Proof. induction ms as [|t ms IH]; simpl; done. Qed.

Lemma stopped_all_ended (ms : MediaStream) :
  Forall (fun t => readyState t = ended) (map stop_track ms).
Proof. induction ms; simpl; constructor; done. Qed.

Lemma ended_inactive (ms : MediaStream) :
  Forall (fun t => readyState t = ended) ms -> stream_active ms = false.
Proof.
  induction 1 as [|t ms Ht _ IH]; simpl; [done|].
  unfold is_live. by rewrite Ht.
Qed.

Lemma active_from_spec (h : list MediaStream) (i s : StreamId) :
  s ∈ active_from i h <-> i <= s /\ holds_camera h (s - i).
Proof.
  revert i. induction h as [|ms h IH]; intros i; simpl.
  - split; [by intros ?%elem_of_nil|]. intros [_ (ms & Hms & _)]. done.
  - assert (Hstep : s ∈ active_from (S i) h <->
                    i <= s /\ s <> i /\ holds_camera h (s - S i)).
    { rewrite IH. split.
      - intros [? ?]. split; [lia|]. split; [lia|done].
      - intros (? & ? & ?). split; [lia|done]. }
    destruct (stream_active ms) eqn:Ha.
    + rewrite elem_of_cons, Hstep. split.
      * intros [->|(Hle & Hne & ms' & Hl & Hact)].
        -- split; [lia|]. exists ms. by rewrite Nat.sub_diag.
        -- split; [done|]. exists ms'. split; [|done].
           replace (s - i) with (S (s - S i)) by lia. done.
      * intros [Hle (ms' & Hl & Hact)].
        destruct (decide (s = i)) as [->|Hne]; [by left|right].
        split; [done|]. split; [done|]. exists ms'. split; [|done].
        replace (s - i) with (S (s - S i)) in Hl by lia. done.
    + rewrite Hstep. split.
      * intros (Hle & Hne & ms' & Hl & Hact).
        split; [done|]. exists ms'. split; [|done].
        replace (s - i) with (S (s - S i)) by lia. done.
      * intros [Hle (ms' & Hl & Hact)].
        assert (s <> i).
        { intros ->. rewrite Nat.sub_diag in Hl. simpl in Hl. congruence. }
        split; [done|]. split; [done|]. exists ms'. split; [|done].
        replace (s - i) with (S (s - S i)) in Hl by lia. done.
Qed.

Lemma active_streams_spec (c : Component) (s : StreamId) :
  s ∈ active_streams c <-> holds_camera (streams c) s.
Proof.
  unfold active_streams. rewrite active_from_spec, Nat.sub_0_r.
  split; [by intros [_ ?]|]. intros ?. split; [lia|done].
Qed.



Lemma none_active (c : Component) :
  (forall s, ~ holds_camera (streams c) s) -> active_streams c = [].
Proof.
  intros H. destruct (active_streams c) as [|s l] eqn:E; [done|].
  exfalso. apply (H s), active_streams_spec. rewrite E. apply list_elem_of_here.
Qed.

Lemma holds_stopTracks (h : list MediaStream) (s s' : StreamId) :
  holds_camera (stopTracks s h) s' <-> holds_camera h s' /\ s' <> s.
Proof.
  unfold holds_camera, stopTracks. split.
  - intros (ms & Hl & Hact). destruct (decide (s' = s)) as [->|Hne].
    + rewrite list_lookup_alter_eq in Hl.
      apply fmap_Some in Hl as (ms0 & _ & ->).
      by rewrite stopped_inactive in Hact.
    + rewrite list_lookup_alter_ne in Hl by congruence. eauto.
  - intros [(ms & Hl & Hact) Hne]. exists ms.
    by rewrite list_lookup_alter_ne by congruence.
Qed.

Lemma released_stopTracks (h : list MediaStream) (s : StreamId) :
  s < length h -> released (stopTracks s h) s.
Proof.
  intros Hlt. apply lookup_lt_is_Some_2 in Hlt as [ms Hms].
  exists (map stop_track ms). unfold stopTracks.
  rewrite list_lookup_alter_eq, Hms. split; [done|apply stopped_all_ended].
Qed.

Lemma holds_newStream (kinds : list string) (h : list MediaStream) (s : StreamId) :
  holds_camera (snd (newStream kinds h)) s ->
  holds_camera h s \/ s = fst (newStream kinds h).
Proof.
  unfold newStream, holds_camera. simpl. intros (ms & Hl & Hact).
  destruct (decide (s < length h)) as [Hlt|Hge].
  - left. exists ms. by rewrite lookup_app_l in Hl.
  - right. apply lookup_lt_Some in Hl. rewrite length_app in Hl. simpl in Hl. lia.
Qed.


Lemma ocr_stop_hardware (c : Component) :
  streamRef (Ocr.stopCamera c) = None /\
  isScanning (Ocr.stopCamera c) = false /\
  isProcessing (Ocr.stopCamera c) = isProcessing c /\
  streams (Ocr.stopCamera c) =
    match streamRef c with
    | Some s => stopTracks s (streams c)
    | None => streams c
    end.
Proof.
  unfold Ocr.stopCamera, bind_srcObject.
  destruct c as [sc pr ci oc rs er [v|] [s|] st]; simpl; repeat split.
Qed.

Lemma ocr_stop_idle (c : Component) : is_idle (Ocr.stopCamera c).
Proof.
  unfold is_idle, Ocr.stopCamera, bind_srcObject.
  destruct c as [sc pr ci oc rs er [v|] [s|] st]; simpl; repeat split.
Qed.


Lemma ocr_stop_when_idle (c : Component) :
  is_idle c -> Ocr.stopCamera c = c.
Proof.
  intros (Hsc & Hs & Hv). unfold Ocr.stopCamera, bind_srcObject.
  destruct c as [sc pr ci oc rs er [v|] sr st]; simpl in *; subst; simpl.
  - destruct v as [so w h]. simpl in Hv. by subst.
  - done.
Qed.

End Hardware.

(** C8: [stopCamera], the same function in both copies, stops every track
    of the referenced stream, detaches the preview, and leaves the session
    idle; on an idle session it changes nothing, and a second call changes
    nothing more.  It is a total function and raises nothing. *)
Theorem stopCamera_releases_idempotent (c : Component) :
  Part000.stopCamera c = Ocr.stopCamera c /\
  (forall s ms, streamRef c = Some s -> streams c !! s = Some ms ->
     streams (Ocr.stopCamera c) !! s = Some (map stop_track ms) /\
     released (streams (Ocr.stopCamera c)) s /\
     ~ holds_camera (streams (Ocr.stopCamera c)) s) /\
  is_idle (Ocr.stopCamera c) /\
  (is_idle c -> Ocr.stopCamera c = c) /\
  Ocr.stopCamera (Ocr.stopCamera c) = Ocr.stopCamera c.
Proof.
  split; [done|]. split; [|split; [apply ocr_stop_idle|split]].
  - intros s ms Hs Hms. destruct (ocr_stop_hardware c) as (_ & _ & _ & Hh).
    rewrite Hh, Hs.
    assert (Hl : stopTracks s (streams c) !! s = Some (map stop_track ms)).
    { unfold stopTracks. by rewrite list_lookup_alter_eq, Hms. }
    split; [done|]. split.
    + exists (map stop_track ms). split; [done|apply stopped_all_ended].
    + intros [_ Hne]%holds_stopTracks. done.
  - apply ocr_stop_when_idle.
  - apply ocr_stop_when_idle, ocr_stop_idle.
Qed.

Lemma stopCamera_releases_idempotent_witness :
  Ocr.stopCamera scanning_ready
  = mkComponent false false None "" [] None
      (Some (mkVideo None 1280 720)) None [[mkTrack "video" ended]] /\
  Ocr.stopCamera init = init.
Proof.
  split; [reflexivity|].
  destruct (stopCamera_releases_idempotent init) as (_ & _ & _ & Hidle & _).
  apply Hidle. repeat split.
Defined.

(** ** Capture *)

Section Capture.

Lemma no_orphan_same_hardware (c c0 : Component) :
  streams c0 = streams c -> streamRef c0 = streamRef c ->
  no_orphan c -> no_orphan c0.
Proof.
  unfold no_orphan, active_streams. intros -> -> H. done.
Qed.



End Capture.




(** ** Starting the camera: the second copy *)

Section Start.

Lemma no_orphan_holds (c : Component) :
  no_orphan c <-> (forall s, holds_camera (streams c) s -> streamRef c = Some s).
Proof.
  unfold no_orphan. split; intros H s Hs; apply H; by apply active_streams_spec.
Qed.

Lemma part000_release_hardware (c : Component) :
  streamRef (Part000.releaseTracks c) = streamRef c /\
  videoRef (Part000.releaseTracks c) = videoRef c /\
  streams (Part000.releaseTracks c) =
    match streamRef c with
    | Some s => stopTracks s (streams c)
    | None => streams c
    end.
Proof.
  unfold Part000.releaseTracks.
  destruct c as [sc pr ci oc rs er vr [s|] st]; repeat split.
Qed.

(** Once the referenced stream is released nothing holds the camera. *)
Lemma part000_release_none_held (c : Component) (s : nat) :
  no_orphan c -> ~ holds_camera (streams (Part000.releaseTracks c)) s.
Proof.
  rewrite no_orphan_holds. intros H Hs.
  destruct (part000_release_hardware c) as (_ & _ & Hh). rewrite Hh in Hs.
  destruct (streamRef c) as [s0|] eqn:E.
  - apply holds_stopTracks in Hs as [Hs Hne]. apply H in Hs. congruence.
  - apply H in Hs. congruence.
Qed.

(** The hardware the [try] block leaves behind, however it ends: as it
    found it (a failed preflight), with the referenced stream released
    (no new stream), or with the referenced stream released and the new
    stream referenced. *)
Lemma part000_try_hardware (env : StartEnv) (c : Component) :
  (streams (state_of (Part000.startCamera_try env c)) = streams c /\
   streamRef (state_of (Part000.startCamera_try env c)) = streamRef c) \/
  (streams (state_of (Part000.startCamera_try env c))
     = streams (Part000.releaseTracks c) /\
   streamRef (state_of (Part000.startCamera_try env c)) = streamRef c) \/
  (exists kinds,
     streams (state_of (Part000.startCamera_try env c))
       = snd (newStream kinds (streams (Part000.releaseTracks c))) /\
     streamRef (state_of (Part000.startCamera_try env c))
       = Some (fst (newStream kinds (streams (Part000.releaseTracks c))))).
Proof.
  unfold Part000.startCamera_try, getUserMedia, allocate,
    Part000.awaitMetadata, newStream.
  unfold_js.
  destruct (Part000.apiMissing env); [by left|].
  destruct (Part000.insecure env); [by left|].
  destruct c as [sc pr ci oc rs er vr sr st].
  destruct (mediaDevices env) as [[kinds|e|]|]; simpl;
    try (right; left; by destruct sr).
  right; right. exists kinds.
  destruct vr as [v|]; simpl; [|by destruct sr].
  destruct (Part000.firstFrame (first_event env)) as [t [e|[w h]]]; simpl;
    [by destruct sr|].
  destruct (play env); simpl; by destruct sr.
Qed.

Lemma part000_try_no_orphan (env : StartEnv) (c : Component) :
  no_orphan c -> no_orphan (state_of (Part000.startCamera_try env c)).
Proof.
  intros H.
  destruct (part000_try_hardware env c)
    as [[Hh Hr]|[[Hh Hr]|(kinds & Hh & Hr)]].
  - by apply (no_orphan_same_hardware c).
  - apply no_orphan_holds. intros s Hs. rewrite Hh in Hs.
    by apply part000_release_none_held in Hs.
  - apply no_orphan_holds. intros s Hs. rewrite Hh in Hs. rewrite Hr.
    apply holds_newStream in Hs as [Hs| ->]; [|done].
    by apply part000_release_none_held in Hs.
Qed.

(** The [catch] block: the message is set, the referenced stream is
    released and forgotten, the preview is detached. *)
Lemma part000_catch (e : Exn) (c1 : Component) :
  exists c', Part000.startCamera_catch e c1 = Returned tt c' /\
    is_idle c' /\ error c' = Some (Part000.errorMessage e) /\
    readings c' = readings c1 /\
    (forall s, streamRef c1 = Some s -> s < length (streams c1) ->
       released (streams c') s) /\
    (no_orphan c1 -> active_streams c' = []).
Proof.
  unfold Part000.startCamera_catch. unfold_js.
  eexists. split; [reflexivity|].
  destruct c1 as [sc pr ci oc rs er vr sr st].
  unfold is_idle, Part000.releaseTracks, bind_srcObject.
  destruct sr as [s0|], vr as [v|]; simpl;
    (split; [repeat split|]); (split; [done|]); (split; [done|]);
    (split;
     [ first [ intros s [= ->] Hlt; by apply released_stopTracks
             | intros s [=] ]
     | intros H; apply none_active; intros s Hs; simpl in Hs;
       pose proof (proj1 (no_orphan_holds _) H) as H'; simpl in H';
       try (apply holds_stopTracks in Hs as [Hs Hne]);
       apply H' in Hs; congruence ]).
Qed.

(** Every failed start of the second copy ends idle with no stream
    holding the camera. *)
Lemma part000_failed_start_releases (env : StartEnv) (c c1 : Component) (e : Exn) :
  no_orphan c ->
  Part000.startCamera_try env c = Threw e c1 ->
  exists c', Part000.startCamera env c = Returned tt c' /\
    is_idle c' /\ error c' = Some (Part000.errorMessage e) /\
    active_streams c' = [].
Proof.
  intros H Htry.
  pose proof (part000_try_no_orphan env c H) as H1. rewrite Htry in H1.
  destruct (part000_catch e c1) as (c' & Hc & Hi & He & _ & _ & Hn).
  exists c'. unfold Part000.startCamera, try_catch. rewrite Htry.
  split; [done|]. split; [done|]. split; [done|]. by apply Hn.
Qed.



Lemma init_no_orphan : no_orphan init.
Proof. intros s Hs. by apply elem_of_nil in Hs. Qed.



End Start.

(** ** The first-frame wait *)

Section FirstFrame.

(** In the second copy the wait settles within [timeout_ms]; it resolves
    only on metadata that arrived earlier, and when neither metadata nor
    an error event arrived earlier it rejects with the timeout error. *)
Lemma part000_first_frame_bounded (ev : MediaEvent) :
  (fst (Part000.firstFrame ev) <= Part000.timeout_ms)%N /\
  (forall w h, snd (Part000.firstFrame ev) = inr (w, h) ->
     exists t, ev = LoadedMetadata t w h /\ (t < Part000.timeout_ms)%N) /\
  ((forall t w h, ev = LoadedMetadata t w h -> (Part000.timeout_ms <= t)%N) ->
   (forall t, ev = ErrorEvent t -> (Part000.timeout_ms <= t)%N) ->
   Part000.firstFrame ev
   = (Part000.timeout_ms, inl (Error "Video stream timed out"))).
Proof.
  unfold Part000.firstFrame.
  destruct ev as [t w h|t|]; simpl;
    try destruct (N.ltb_spec t Part000.timeout_ms) as [Hlt|Hge]; simpl.
  - split; [lia|]. split.
    + intros w' h' [= <- <-]. eauto.
    + intros H _. specialize (H t w h eq_refl). lia.
  - split; [lia|]. split; [intros ? ? [=]|done].
  - split; [lia|]. split; [intros ? ? [=]|].
    intros _ H. specialize (H t eq_refl). lia.
  - split; [lia|]. split; [intros ? ? [=]|done].
  - split; [lia|]. split; [intros ? ? [=]|done].
Qed.

(** The message of a timed-out start differs from the messages for a
    denied permission and for a missing camera. *)
Lemma part000_timeout_message_distinct (e : Exn) :
  Part000.name_is e "NotAllowedError" = true \/
  Part000.name_is e "NotFoundError" = true ->
  Part000.errorMessage (Error "Video stream timed out") <> Part000.errorMessage e.
Proof.
  unfold Part000.errorMessage. intros [H|H].
  - rewrite H. vm_compute. discriminate.
  - rewrite H. destruct (Part000.name_is e "NotAllowedError");
      vm_compute; discriminate.
Qed.

(** A start of the second copy whose stream was acquired and bound, and
    whose preview reports nothing in time, fails with the timeout
    message and ends idle. *)
Lemma part000_start_times_out (env : StartEnv) (c : Component)
    (kinds : list string) (v : Video) :
  mediaDevices env = Some (Resolved kinds) ->
  Part000.insecure env = false ->
  videoRef c = Some v ->
  Part000.firstFrame (first_event env)
  = (Part000.timeout_ms, inl (Error "Video stream timed out")) ->
  exists c', Part000.startCamera env c = Returned tt c' /\
    error c' = Some "Error accessing camera: Video stream timed out" /\
    is_idle c'.
Proof.
  intros Hm Hsec Hv Hff.
  unfold Part000.startCamera, Part000.startCamera_try, getUserMedia, allocate,
    Part000.awaitMetadata, Part000.apiMissing, newStream.
  unfold_js. rewrite Hm, Hsec, Hff.
  destruct c as [sc pr ci oc rs er vr sr st]. simpl in Hv. subst vr.
  destruct sr as [s0|]; simpl.
  all: match goal with |- exists c', Part000.startCamera_catch ?e ?c1 = _ /\ _ =>
    destruct (part000_catch e c1) as (c' & Hc & Hi & He & _) end.
  all: exists c'; by rewrite Hc.
Qed.

End FirstFrame.

(** ** [src/ocr.js] on the session properties *)

(** C1: in [src/ocr.js] a start on a session that already references a
    live stream acquires a second stream without stopping the first, so two
    streams hold the camera and the first is no longer referenced; a stop
    then releases only the second.  The second copy, on the same actions,
    keeps one. *)
Theorem ocr_restart_orphans_stream :
  active_streams (run Ocr.startCamera Ocr.stopCamera
                    [Start camera_ok; Start camera_ok] mounted) = [0; 1] /\
  streamRef (run Ocr.startCamera Ocr.stopCamera
               [Start camera_ok; Start camera_ok] mounted) = Some 1 /\
  active_streams (run Ocr.startCamera Ocr.stopCamera
                    [Start camera_ok; Start camera_ok; Stop] mounted) = [0] /\
  active_streams (run Ocr.startCamera Ocr.stopCamera
                    [Start camera_ok; Start camera_ok] init) = [0; 1] /\
  active_streams (run Part000.startCamera Part000.stopCamera
                    [Start camera_ok; Start camera_ok] mounted) = [1] /\
  active_streams (run Part000.startCamera Part000.stopCamera
                    [Start camera_ok; Start camera_ok; Stop] mounted) = [].
Proof. repeat split. Qed.




(** C3: in [src/ocr.js] a start that fails after the stream was obtained,
    for want of a preview element or because playback is refused, leaves the
    tracks of that stream live and the stream referenced.  The second copy,
    on the same inputs, ends with no stream holding the camera. *)
Theorem ocr_failed_start_keeps_stream :
  Ocr.startCamera camera_ok init
  = Returned tt
      (mkComponent false false None "" []
         (Some "Error accessing camera: Video element not initialized")
         None (Some 0) [[mkTrack "video" live]]) /\
  Ocr.startCamera camera_play_rejected mounted
  = Returned tt
      (mkComponent false false None "" []
         (Some "Error accessing camera: The play() request was interrupted")
         (Some (mkVideo (Some 0) 1280 720)) (Some 0) [[mkTrack "video" live]]) /\
  active_streams (state_of (Ocr.startCamera camera_ok init)) = [0] /\
  active_streams (state_of (Ocr.startCamera camera_play_rejected mounted)) = [0] /\
  active_streams (state_of (Part000.startCamera camera_ok init)) = [] /\
  active_streams (state_of (Part000.startCamera camera_play_rejected mounted)) = [].
Proof. repeat split. Qed.

(** * Further properties of the reading store and the export *)

Section StoreMore.

Lemma filter_ids_comm (i j : Z) (rs : list Reading) :
  filter (fun r => id r ≠ i) (filter (fun r => id r ≠ j) rs)
  = filter (fun r => id r ≠ j) (filter (fun r => id r ≠ i) rs).
Proof.
  induction rs as [|r rs IH]; [done|].
  destruct (decide (id r = i)) as [Hi|Hi], (decide (id r = j)) as [Hj|Hj].
  - rewrite !filter_cons_False by (intros H; by apply H). done.
  - rewrite (filter_cons_False (fun r => id r ≠ i) r) by (intros H; by apply H).
    rewrite (filter_cons_True (fun r => id r ≠ j) r) by done.
    rewrite (filter_cons_False (fun r => id r ≠ i) r) by (intros H; by apply H).
    done.
  - rewrite (filter_cons_False (fun r => id r ≠ j) r) by (intros H; by apply H).
    rewrite (filter_cons_True (fun r => id r ≠ i) r) by done.
    rewrite (filter_cons_False (fun r => id r ≠ j) r) by (intros H; by apply H).
    done.
  - rewrite (filter_cons_True (fun r => id r ≠ j) r) by done.
    rewrite (filter_cons_True (fun r => id r ≠ i) r) by done.
    rewrite (filter_cons_True (fun r => id r ≠ i) r) by done.
    rewrite (filter_cons_True (fun r => id r ≠ j) r) by done.
    by rewrite IH.
Qed.

Lemma filter_ids_idem (i : Z) (rs : list Reading) :
  filter (fun r => id r ≠ i) (filter (fun r => id r ≠ i) rs)
  = filter (fun r => id r ≠ i) rs.
Proof.
  induction rs as [|r rs IH]; [done|].
  destruct (decide (id r = i)) as [Hi|Hi].
  - by rewrite !filter_cons_False by (intros H; by apply H).
  - rewrite (filter_cons_True _ r) by done.
    rewrite (filter_cons_True _ r) by done. by rewrite IH.
Qed.

Lemma filter_ids_map (i : Z) (rs : list Reading) :
  map id (filter (fun r => id r ≠ i) rs) = filter (fun k => k ≠ i) (map id rs).
Proof.
  induction rs as [|r rs IH]; [done|]. simpl.
  destruct (decide (id r = i)) as [Hi|Hi].
  - rewrite (filter_cons_False _ r) by (intros H; by apply H).
    rewrite (filter_cons_False _ (id r)) by (intros H; by apply H). done.
  - rewrite (filter_cons_True _ r) by done.
    rewrite (filter_cons_True _ (id r)) by done. simpl. by rewrite IH.
Qed.

Lemma filter_unique_length (i : Z) (rs : list Reading) :
  NoDup (map id rs) -> i ∈ map id rs ->
  S (length (filter (fun r => id r ≠ i) rs)) = length rs.
Proof.
  induction rs as [|r rs IH]; simpl; intros Hnd Hin.
  - by apply elem_of_nil in Hin.
  - apply NoDup_cons in Hnd as [Hr Hnd].
    destruct (decide (id r = i)) as [Hi|Hi].
    + rewrite filter_cons_False by (intros H; by apply H).
      rewrite filter_absent; [done|]. by rewrite <- Hi.
    + rewrite filter_cons_True by done. simpl. f_equal.
      apply IH; [done|]. apply elem_of_cons in Hin as [Hin|Hin]; [congruence|done].
Qed.

End StoreMore.

(** X1: deleting the identifier of the record a capture has just stored,
    when no earlier record has that identifier, gives back the list as it
    was before the capture. *)
Theorem capture_then_delete_restores (env : CaptureEnv) (c : Component) (r : N) :
  recognition env = Resolved r ->
  date_now env ∉ map id (readings c) ->
  (Part000.notReady c = false ->
   readings (Part000.deleteReading (date_now env)
               (state_of (Part000.captureAndProcess env c))) = readings c) /\
  (videoRef c <> None ->
   readings (Ocr.deleteReading (date_now env)
               (state_of (Ocr.captureAndProcess env c))) = readings c).
Proof.
  intros Hr Hfresh.
  destruct (capture_appends_front env c r Hr) as [Hp Ho].
  split; intros H.
  - unfold Part000.deleteReading. simpl. rewrite (Hp H).
    rewrite filter_cons_False by (intros Hne; by apply Hne).
    by apply filter_absent.
  - unfold Ocr.deleteReading. simpl. rewrite (Ho H).
    rewrite filter_cons_False by (intros Hne; by apply Hne).
    by apply filter_absent.
Qed.

Lemma capture_then_delete_restores_witness :
  readings (Part000.deleteReading 1000
              (state_of (Part000.captureAndProcess capture_42 scanning_ready)))
  = [].
Proof.
  destruct (capture_then_delete_restores capture_42 scanning_ready 42) as [H _].
  - reflexivity.
  - apply not_elem_of_nil.
  - apply H. reflexivity.
Defined.

(** X2: deletions commute and repeating one changes nothing, in both
    copies. *)
Theorem delete_commutes_idempotent (i j : Z) (c : Component) :
  Ocr.deleteReading i (Ocr.deleteReading j c)
  = Ocr.deleteReading j (Ocr.deleteReading i c) /\
  Ocr.deleteReading i (Ocr.deleteReading i c) = Ocr.deleteReading i c /\
  Part000.deleteReading i (Part000.deleteReading j c)
  = Part000.deleteReading j (Part000.deleteReading i c) /\
  Part000.deleteReading i (Part000.deleteReading i c) = Part000.deleteReading i c.
Proof.
  unfold Ocr.deleteReading, Part000.deleteReading.
  destruct c as [sc pr ci oc rs er vr sr st]. unfold set_readings. simpl.
  rewrite (filter_ids_comm i j rs), (filter_ids_idem i rs). done.
Qed.

(** X3: when no two stored records share an identifier, a deletion keeps
    it so, and deleting an identifier that is present removes exactly one
    record. *)
Theorem delete_unique_removes_one (i : Z) (c : Component) :
  NoDup (map id (readings c)) ->
  NoDup (map id (readings (Ocr.deleteReading i c))) /\
  NoDup (map id (readings (Part000.deleteReading i c))) /\
  (i ∉ map id (readings (Ocr.deleteReading i c))) /\
  (i ∈ map id (readings c) ->
   S (length (readings (Ocr.deleteReading i c))) = length (readings c) /\
   S (length (readings (Part000.deleteReading i c))) = length (readings c)).
Proof.
  intros Hnd. unfold Ocr.deleteReading, Part000.deleteReading. simpl.
  rewrite filter_ids_map.
  split; [by apply NoDup_filter|]. split; [by apply NoDup_filter|]. split.
  - intros H. apply list_elem_of_filter in H as [H _]. by apply H.
  - intros Hin. by rewrite filter_unique_length.
Qed.

Lemma delete_unique_removes_one_witness :
  S (length (readings (Ocr.deleteReading 7
       (set_readings [mkReading 5 1 "a" ""; mkReading 7 2 "b" ""] init)))) = 2.
Proof.
  destruct (delete_unique_removes_one 7
              (set_readings [mkReading 5 1 "a" ""; mkReading 7 2 "b" ""] init))
    as (_ & _ & _ & H).
  - simpl. apply NoDup_cons. split.
    + intros Hin. apply list_elem_of_singleton in Hin. discriminate.
    + apply NoDup_singleton.
  - apply H. simpl. apply list_elem_of_further, list_elem_of_here.
Defined.

(** X4: on a non-empty list, and so whenever the page offers the export,
    the two copies export the same text; on the empty list [src/ocr.js]
    exports the header followed by a line break and the second copy the
    header alone. *)
Theorem export_copies_agree (iso : string) (c : Component) :
  (readings c <> [] ->
   blob (Ocr.exportReadings c) = blob (Part000.exportReadings iso c)) /\
  (readings c = [] ->
   blob (Part000.exportReadings iso c) = csv_header /\
   blob (Ocr.exportReadings c) = csv_header +:+ String newline EmptyString) /\
  (exportOffered c = true ->
   blob (Ocr.exportReadings c) = blob (Part000.exportReadings iso c)).
Proof.
  rewrite ocr_blob, part000_blob. split; [|split].
  - by destruct (readings c).
  - by intros ->.
  - unfold exportOffered. destruct (readings c); simpl; [discriminate|done].
Qed.

Lemma export_copies_agree_witness :
  blob (Ocr.exportReadings (set_readings [mkReading 1000 42 "t" "d"] init))
  = blob (Part000.exportReadings "2026" (set_readings [mkReading 1000 42 "t" "d"] init)).
Proof.
  destruct (export_copies_agree "2026"
              (set_readings [mkReading 1000 42 "t" "d"] init)) as [H _].
  apply H. discriminate.
Defined.

Section Rows.

Lemma count_char_app c (s t : string) :
  count_char c (s +:+ t) = count_char c s + count_char c t.
Proof. induction s as [|a s IH]; simpl; [done|]. rewrite IH. lia. Qed.

Lemma digits_no_comma (d : Decimal.uint) :
  count_char comma (NilEmpty.string_of_uint d) = 0.
Proof. induction d; simpl; done. Qed.

Lemma toString_no_comma (n : N) : count_char comma (toString n) = 0.
Proof.
  unfold toString, NilZero.string_of_uint.
  destruct (N.to_uint n); try apply digits_no_comma. done.
Qed.

Lemma split_on_length c (s : string) :
  length (split_on c s) = S (count_char c s).
Proof.
  induction s as [|a s IH]; simpl; [done|].
  destruct (Ascii.eqb a c); simpl; [by rewrite IH|].
  destruct (split_on c s); simpl in *; lia.
Qed.

Lemma to_uint_nonnil (n : N) : N.to_uint n <> Decimal.Nil.
Proof.
  intros H. pose proof (DecimalN.Unsigned.of_to n) as Hn. rewrite H in Hn.
  simpl in Hn. subst n. discriminate.
Qed.

Lemma toString_inj (n m : N) : toString n = toString m -> n = m.
Proof.
  unfold toString. intros H.
  apply DecimalN.Unsigned.to_uint_inj.
  pose proof (NilZero.usu (N.to_uint n) (to_uint_nonnil n)) as Hn.
  pose proof (NilZero.usu (N.to_uint m) (to_uint_nonnil m)) as Hm.
  rewrite H in Hn. congruence.
Qed.

(** A text is cut in one way only at its last comma. *)
Lemma last_comma_unique (s1 s2 d1 d2 : string) :
  count_char comma d1 = 0 -> count_char comma d2 = 0 ->
  s1 +:+ String comma d1 = s2 +:+ String comma d2 ->
  s1 = s2 /\ d1 = d2.
Proof.
  intros H1 H2. revert s2. induction s1 as [|a s1 IH]; intros [|b s2] H; simpl in H.
  - by inversion H.
  - inversion H as [[Ha Hd]]. subst. rewrite count_char_app in H1. simpl in H1.
    change (Ascii.eqb comma comma) with true in H1. lia.
  - inversion H as [[Ha Hd]]. subst. rewrite count_char_app in H2. simpl in H2.
    change (Ascii.eqb comma comma) with true in H2. lia.
  - inversion H as [[Ha Hd]]. subst. destruct (IH s2 Hd) as [-> ->]. done.
Qed.

End Rows.

(** X5: values are written unquoted, so a row has one comma more than its
    timestamp: cut at commas it has two fields exactly when the timestamp has
    no comma, and three for a timestamp such as [11/1/2026, 6:31:00 PM]. *)
Theorem csv_row_fields (r : Reading) :
  count_char comma (csv_row r) = S (count_char comma (timestamp r)) /\
  length (split_on comma (csv_row r)) = 2 + count_char comma (timestamp r).
Proof.
  assert (H : count_char comma (csv_row r) = S (count_char comma (timestamp r))).
  { unfold csv_row. rewrite !count_char_app, toString_no_comma. simpl. lia. }
  split; [done|]. rewrite split_on_length, H. done.
Qed.

(** X6: a row determines the timestamp and the reading it was written
    from: the reading is the text after the last comma. *)
Theorem csv_row_injective (r1 r2 : Reading) :
  csv_row r1 = csv_row r2 ->
  timestamp r1 = timestamp r2 /\ reading r1 = reading r2.
Proof.
  unfold csv_row. intros H.
  apply last_comma_unique in H as [Ht Hd]; try apply toString_no_comma.
  split; [done|]. by apply toString_inj.
Qed.

Lemma csv_row_injective_witness :
  timestamp (mkReading 1 42 "11/1/2026, 6:31:00 PM" "a")
  = timestamp (mkReading 2 42 "11/1/2026, 6:31:00 PM" "b") /\
  reading (mkReading 1 42 "11/1/2026, 6:31:00 PM" "a")
  = reading (mkReading 2 42 "11/1/2026, 6:31:00 PM" "b").
Proof.
  apply (csv_row_injective (mkReading 1 42 "11/1/2026, 6:31:00 PM" "a")
           (mkReading 2 42 "11/1/2026, 6:31:00 PM" "b")).
  reflexivity.
Defined.

(** * Further properties of the handlers *)

Section HandlersMore.

Lemma ocr_stop_keeps (c : Component) :
  readings (Ocr.stopCamera c) = readings c /\
  error (Ocr.stopCamera c) = error c /\
  capturedImage (Ocr.stopCamera c) = capturedImage c /\
  ocrResult (Ocr.stopCamera c) = ocrResult c /\
  isProcessing (Ocr.stopCamera c) = isProcessing c.
Proof.
  unfold Ocr.stopCamera, bind_srcObject.
  destruct c as [sc pr ci oc rs er [v|] [s|] st]; simpl; repeat split.
Qed.

Lemma set_error_twice (e1 e2 : option string) (c : Component) :
  set_error e1 (set_error e2 c) = set_error e1 c.
Proof. by destruct c. Qed.

Lemma videoinput_filter (devices : list string) :
  Nat.eqb (length (filter (fun k : string => k = "videoinput") devices)) 0 = false
  <-> "videoinput" ∈ devices.
Proof.
  induction devices as [|d ds IH]; simpl.
  - split; [discriminate|]. by intros ?%elem_of_nil.
  - destruct (decide (d = "videoinput")) as [->|Hne].
    + rewrite filter_cons_True by done. simpl. split; [|done].
      intros _. apply list_elem_of_here.
    + rewrite filter_cons_False by done. rewrite IH, elem_of_cons.
      split; [by right|]. intros [H|H]; [congruence|done].
Qed.

End HandlersMore.

(** X7: the support check of [src/ocr.js] never touches anything but the
    error message.  It reports the first failing check, in the order camera
    API, secure page, presence of a video input; a rejected device
    enumeration is reported with its own message, and when every check passes
    the component is left exactly as it was, an earlier message included. *)
Theorem checkCameraSupport_first_failure (env : SupportEnv) (c : Component) :
  state_of (checkCameraSupport env c)
  = set_error (error (state_of (checkCameraSupport env c))) c /\
  (cameraApi env = false ->
   checkCameraSupport env c
   = Returned tt
       (set_error
          (Some "Camera initialization error: Camera API is not supported in this browser")
          c)) /\
  (cameraApi env = true -> pageInsecure env = true ->
   checkCameraSupport env c
   = Returned tt
       (set_error
          (Some "Camera initialization error: Camera access requires HTTPS (except on localhost)")
          c)) /\
  (cameraApi env = true -> pageInsecure env = false ->
   forall devices, enumerateDevices env = Resolved devices ->
     ("videoinput" ∈ devices -> checkCameraSupport env c = Returned tt c) /\
     ("videoinput" ∉ devices ->
      checkCameraSupport env c
      = Returned tt
          (set_error (Some "Camera initialization error: No camera devices found") c))) /\
  (cameraApi env = true -> pageInsecure env = false ->
   forall e, enumerateDevices env = Rejected e ->
     checkCameraSupport env c
     = Returned tt
         (set_error
            (Some ("Camera initialization error: " +:+ interpolate (exn_message e))) c)).
Proof.
  unfold checkCameraSupport. unfold_js.
  destruct (cameraApi env) eqn:Ha; simpl.
  2: { split; [by destruct c|]. repeat split; intros; done. }
  destruct (pageInsecure env) eqn:Hs; simpl.
  1: { split; [by destruct c|]. repeat split; intros; done. }
  split.
  - destruct (enumerateDevices env) as [devices|e|]; simpl; [|by destruct c..].
    destruct (Nat.eqb _ 0); simpl; by destruct c.
  - split; [done|]. split; [done|]. split.
    + intros _ _ devices ->. simpl.
      pose proof (videoinput_filter devices) as Hf.
      destruct (Nat.eqb _ 0) eqn:E; simpl.
      * split; [|done]. intros Hin. apply Hf in Hin. congruence.
      * split; [done|]. intros Hnin. exfalso. apply Hnin, Hf. done.
    + intros _ _ e ->. done.
Qed.

Lemma checkCameraSupport_first_failure_witness :
  checkCameraSupport
    (mkSupportEnv true "https:" "example.org" (Resolved ["audioinput"; "audiooutput"]))
    init
  = Returned tt
      (set_error (Some "Camera initialization error: No camera devices found") init).
Proof.
  destruct (checkCameraSupport_first_failure
              (mkSupportEnv true "https:" "example.org"
                 (Resolved ["audioinput"; "audiooutput"])) init)
    as (_ & _ & _ & H & _).
  destruct (H eq_refl eq_refl ["audioinput"; "audiooutput"] eq_refl) as [_ Hnone].
  apply Hnone. intros Hin.
  apply elem_of_cons in Hin as [Hin|Hin]; [discriminate|].
  apply list_elem_of_singleton in Hin. discriminate.
Defined.

(** X8: when the recognition step fails, no record is stored: the list is
    unchanged, the copy's processing message is set, the grabbed frame stays
    as the captured image, the detected reading is not touched, and the
    session is torn down. *)
Theorem capture_failure_stores_nothing (env : CaptureEnv) (c : Component) (e : Exn) :
  recognition env = Rejected e ->
  (Part000.notReady c = false ->
   exists c', Part000.captureAndProcess env c = Returned tt c' /\
     readings c' = readings c /\
     error c' = Some ("Failed to capture and process image: " +:+
                      or_default (exn_message e) "Unknown error") /\
     capturedImage c' = Some (frame env) /\ ocrResult c' = ocrResult c /\
     isProcessing c' = false /\ is_idle c') /\
  (videoRef c <> None ->
   exists c', Ocr.captureAndProcess env c = Returned tt c' /\
     readings c' = readings c /\
     error c' = Some "Error processing image - please try again" /\
     capturedImage c' = Some (frame env) /\ ocrResult c' = ocrResult c /\
     isProcessing c' = false /\ is_idle c').
Proof.
  intros Hr. split.
  - intros Hready. unfold Part000.captureAndProcess. unfold_js.
    rewrite Hready, Hr. eexists. split; [reflexivity|].
    rewrite part000_stop_is_ocr_stop.
    match goal with |- context [Ocr.stopCamera ?c0] =>
      destruct (ocr_stop_keeps c0) as (-> & -> & -> & -> & ->);
      pose proof (ocr_stop_idle c0) as Hidle end.
    do 5 (split; [done|]). exact Hidle.
  - intros Hv. unfold Ocr.captureAndProcess. unfold_js.
    destruct (videoRef c) eqn:Ev; [|done]. rewrite Hr.
    eexists. split; [reflexivity|].
    match goal with |- context [Ocr.stopCamera ?c0] =>
      destruct (ocr_stop_keeps c0) as (-> & -> & -> & -> & ->);
      pose proof (ocr_stop_idle c0) as Hidle end.
    do 5 (split; [done|]). exact Hidle.
Qed.

Lemma capture_failure_stores_nothing_witness :
  exists c',
    Ocr.captureAndProcess
      (mkCaptureEnv "data:" (Rejected (Error "engine down")) 1000 "t")
      scanning_ready = Returned tt c' /\
    readings c' = readings scanning_ready /\
    error c' = Some "Error processing image - please try again" /\
    capturedImage c' = Some "data:" /\ ocrResult c' = ocrResult scanning_ready /\
    isProcessing c' = false /\ is_idle c'.
Proof.
  destruct (capture_failure_stores_nothing
              (mkCaptureEnv "data:" (Rejected (Error "engine down")) 1000 "t")
              scanning_ready (Error "engine down") eq_refl) as [_ H].
  apply H. discriminate.
Defined.

(** X9: a capture whose recognition resolves shows the reading in decimal,
    keeps the grabbed frame as the captured image and as the image of the new
    record, and ends idle.  The second copy has cleared the error message;
    [src/ocr.js] leaves an earlier message in place. *)
Theorem capture_success_state (env : CaptureEnv) (c : Component) (r : N) :
  recognition env = Resolved r ->
  (Part000.notReady c = false ->
   exists c', Part000.captureAndProcess env c = Returned tt c' /\
     readings c'
     = mkReading (date_now env) r (toLocaleString env) (frame env) :: readings c /\
     ocrResult c' = toString r /\ capturedImage c' = Some (frame env) /\
     error c' = None /\ isProcessing c' = false /\ is_idle c') /\
  (videoRef c <> None ->
   exists c', Ocr.captureAndProcess env c = Returned tt c' /\
     readings c'
     = mkReading (date_now env) r (toLocaleString env) (frame env) :: readings c /\
     ocrResult c' = toString r /\ capturedImage c' = Some (frame env) /\
     error c' = error c /\ isProcessing c' = false /\ is_idle c').
Proof.
  intros Hr. split.
  - intros Hready. unfold Part000.captureAndProcess. unfold_js.
    rewrite Hready, Hr. eexists. split; [reflexivity|].
    rewrite part000_stop_is_ocr_stop.
    match goal with |- context [Ocr.stopCamera ?c0] =>
      destruct (ocr_stop_keeps c0) as (-> & -> & -> & -> & ->);
      pose proof (ocr_stop_idle c0) as Hidle end.
    do 5 (split; [done|]). exact Hidle.
  - intros Hv. unfold Ocr.captureAndProcess. unfold_js.
    destruct (videoRef c) eqn:Ev; [|done]. rewrite Hr.
    eexists. split; [reflexivity|].
    match goal with |- context [Ocr.stopCamera ?c0] =>
      destruct (ocr_stop_keeps c0) as (-> & -> & -> & -> & ->);
      pose proof (ocr_stop_idle c0) as Hidle end.
    do 5 (split; [done|]). exact Hidle.
Qed.

Lemma capture_success_state_witness :
  exists c',
    Ocr.captureAndProcess capture_42
      (set_error (Some "Error accessing camera: x") scanning_ready)
    = Returned tt c' /\
    readings c'
    = [mkReading 1000 42 "11/1/2026, 6:31:00 PM" "data:image/jpeg;base64,AA"] /\
    ocrResult c' = "42" /\
    capturedImage c' = Some "data:image/jpeg;base64,AA" /\
    error c' = Some "Error accessing camera: x" /\
    isProcessing c' = false /\ is_idle c'.
Proof.
  destruct (capture_success_state capture_42
              (set_error (Some "Error accessing camera: x") scanning_ready)
              42 eq_refl) as [_ H].
  apply H. discriminate.
Defined.

(** * Further properties of starting the camera *)

Section StartMore.

Lemma active_from_snoc (h : list (list MediaStreamTrack)) (ms : list MediaStreamTrack)
    (i : nat) :
  active_from i (h ++ [ms])
  = active_from i h ++ (if stream_active ms then [i + length h] else []).
Proof.
  revert i. induction h as [|m h IH]; intros i; simpl.
  - rewrite Nat.add_0_r. by destruct (stream_active ms).
  - rewrite IH. replace (S i + length h) with (i + S (length h)) by lia.
    by destruct (stream_active m).
Qed.

Lemma new_tracks_active (kinds : list string) :
  kinds <> [] -> stream_active (map (fun k => mkTrack k live) kinds) = true.
Proof. by destruct kinds. Qed.

Lemma release_length (c : Component) :
  length (streams (Part000.releaseTracks c)) = length (streams c).
Proof.
  destruct (part000_release_hardware c) as (_ & _ & ->).
  destruct (streamRef c); [|done]. unfold stopTracks. by rewrite length_alter.
Qed.

Lemma part000_start_unfold (env : StartEnv) (c : Component) :
  Part000.startCamera env c
  = match Part000.startCamera_try env c with
    | Threw e c1 => Part000.startCamera_catch e c1
    | r => r
    end.
Proof. done. Qed.

(** The [try] block of the second copy returns exactly when every step
    goes well. *)
Lemma part000_try_returns (env : StartEnv) (c c1 : Component) :
  Part000.startCamera_try env c = Returned tt c1 <->
  exists kinds v t w h,
    mediaDevices env = Some (Resolved kinds) /\ Part000.insecure env = false /\
    videoRef c = Some v /\ first_event env = LoadedMetadata t w h /\
    (t < Part000.timeout_ms)%N /\ play env = Resolved tt /\
    c1 = mkComponent true (isProcessing c) None "" (readings c) None
           (Some (mkVideo (Some (length (streams (Part000.releaseTracks c)))) w h))
           (Some (length (streams (Part000.releaseTracks c))))
           (streams (Part000.releaseTracks c)
            ++ [map (fun k => mkTrack k live) kinds]).
Proof.
  unfold Part000.startCamera_try, getUserMedia, allocate, Part000.awaitMetadata,
    Part000.apiMissing, Part000.firstFrame, newStream.
  unfold_js.
  destruct c as [sc pr ci oc rs er vr [s0|] st].
  all: destruct (mediaDevices env) as [[kinds|e|]|] eqn:Em;
    destruct (Part000.insecure env) eqn:Es; simpl; try no_success.
  all: destruct vr as [v|]; simpl; [|no_success].
  all: destruct (first_event env) as [t w h|t|] eqn:Ef; simpl;
    try destruct (N.ltb_spec t Part000.timeout_ms) as [Hlt|Hge]; simpl;
    try no_success.
  all: destruct (play env) as [[]|e|] eqn:Ep; simpl; try no_success.
  all: split;
    [ intros [= <-]; exists kinds, v, t, w, h; repeat (split; [done|]); done
    | intros (kinds' & v' & t' & w' & h' & [= <-] & _ & [= <-] & [= <- <- <-] & _ & _ & ->);
      done ].
Qed.

End StartMore.

Section StartOutcomes.

Lemma ocr_start_unfold (env : StartEnv) (c : Component) :
  Ocr.startCamera env c
  = match Ocr.startCamera_try env c with
    | Threw e c1 => Ocr.startCamera_catch e c1
    | r => r
    end.
Proof. done. Qed.

Lemma ocr_catch (e : Exn) (c1 : Component) :
  Ocr.startCamera_catch e c1
  = Returned tt
      (set_isScanning false
         (set_error
            (Some ("Error accessing camera: " +:+ interpolate (exn_message e))) c1)).
Proof. done. Qed.

(** The [try] block of [src/ocr.js] returns exactly when every step goes
    well; it has no timer and makes no check of the page. *)
Lemma ocr_try_returns (env : StartEnv) (c c1 : Component) :
  Ocr.startCamera_try env c = Returned tt c1 <->
  exists kinds v t w h,
    mediaDevices env = Some (Resolved kinds) /\
    videoRef c = Some v /\ first_event env = LoadedMetadata t w h /\
    play env = Resolved tt /\
    c1 = mkComponent true (isProcessing c) (capturedImage c) (ocrResult c)
           (readings c) None
           (Some (mkVideo (Some (length (streams c))) w h))
           (Some (length (streams c)))
           (streams c ++ [map (fun k => mkTrack k live) kinds]).
Proof.
  unfold Ocr.startCamera_try, getUserMedia, allocate, Ocr.awaitMetadata,
    Ocr.firstFrame, newStream.
  unfold_js.
  destruct c as [sc pr ci oc rs er vr sr st].
  destruct (mediaDevices env) as [[kinds|e|]|] eqn:Em; simpl; try no_success.
  destruct vr as [v|]; simpl; [|no_success].
  destruct (first_event env) as [t w h|t|] eqn:Ef; simpl; try no_success.
  destruct (play env) as [[]|e|] eqn:Ep; simpl; try no_success.
  split.
  - intros [= <-]. exists kinds, v, t, w, h. repeat (split; [done|]). done.
  - intros (kinds' & v' & t' & w' & h' & [= <-] & [= <-] & [= <- <- <-] & _ & ->).
    done.
Qed.

End StartOutcomes.

(** X10: a start of the second copy ends scanning exactly when the camera
    API is there, the page is secure, [getUserMedia] resolves, the preview
    element is mounted, its metadata loads before the timeout and playback
    starts; the component is then scanning with no error, no captured image
    and no detected reading, the preview bound to the new stream with the
    decoded frame size, the earlier stream released, the readings kept. *)
Theorem part000_start_succeeds_iff (env : StartEnv) (c c' : Component) :
  Part000.startCamera env c = Returned tt c' /\ isScanning c' = true <->
  exists kinds v t w h,
    mediaDevices env = Some (Resolved kinds) /\ Part000.insecure env = false /\
    videoRef c = Some v /\ first_event env = LoadedMetadata t w h /\
    (t < Part000.timeout_ms)%N /\ play env = Resolved tt /\
    c' = mkComponent true (isProcessing c) None "" (readings c) None
           (Some (mkVideo (Some (length (streams (Part000.releaseTracks c)))) w h))
           (Some (length (streams (Part000.releaseTracks c))))
           (streams (Part000.releaseTracks c)
            ++ [map (fun k => mkTrack k live) kinds]).
Proof.
  rewrite part000_start_unfold. split.
  - intros [Hr Hs].
    destruct (Part000.startCamera_try env c) as [[] c1|e c1|c1] eqn:E.
    + apply part000_try_returns. congruence.
    + destruct (part000_catch e c1) as (c2 & Hc & (Hi & _) & _).
      rewrite Hc in Hr. congruence.
    + discriminate.
  - intros H. apply part000_try_returns in H as Htry. rewrite Htry.
    split; [done|]. destruct H as (?&?&?&?&?&?&?&?&?&?&?&->). done.
Qed.

(** X11: a start of [src/ocr.js] ends scanning exactly when [getUserMedia]
    resolves, the preview element is mounted, its metadata loads (however
    late) and playback starts, whatever the protocol and host of the page;
    the new stream is then added beside the streams already handed out, and
    the captured image and detected reading of an earlier capture stay. *)
Theorem ocr_start_succeeds_iff (env : StartEnv) (c c' : Component) :
  Ocr.startCamera env c = Returned tt c' /\ isScanning c' = true <->
  exists kinds v t w h,
    mediaDevices env = Some (Resolved kinds) /\
    videoRef c = Some v /\ first_event env = LoadedMetadata t w h /\
    play env = Resolved tt /\
    c' = mkComponent true (isProcessing c) (capturedImage c) (ocrResult c)
           (readings c) None
           (Some (mkVideo (Some (length (streams c))) w h))
           (Some (length (streams c)))
           (streams c ++ [map (fun k => mkTrack k live) kinds]).
Proof.
  rewrite ocr_start_unfold. split.
  - intros [Hr Hs].
    destruct (Ocr.startCamera_try env c) as [[] c1|e c1|c1] eqn:E.
    + apply ocr_try_returns. congruence.
    + rewrite ocr_catch in Hr. inversion Hr; subst. discriminate.
    + discriminate.
  - intros H. apply ocr_try_returns in H as Htry. rewrite Htry.
    split; [done|]. destruct H as (?&?&?&?&?&?&?&?&?&->). done.
Qed.

(** X12: after a start that has returned, in either copy, the component is
    either scanning with no error message, or not scanning with a message
    that begins [Error accessing camera: ]. *)
Theorem start_scanning_or_error (env : StartEnv) (c c' : Component) :
  Part000.startCamera env c = Returned tt c' \/
  Ocr.startCamera env c = Returned tt c' ->
  (isScanning c' = true /\ error c' = None) \/
  (isScanning c' = false /\
   exists m, error c' = Some ("Error accessing camera: " +:+ m)).
Proof.
  intros [H|H].
  - rewrite part000_start_unfold in H.
    destruct (Part000.startCamera_try env c) as [[] c1|e c1|c1] eqn:E.
    + apply part000_try_returns in E as (?&?&?&?&?&?&?&?&?&?&?&->).
      left. by inversion H.
    + destruct (part000_catch e c1) as (c2 & Hc & (Hi & _) & He & _).
      rewrite Hc in H. inversion H; subst. right. split; [done|].
      rewrite He. unfold Part000.errorMessage. eauto.
    + discriminate.
  - rewrite ocr_start_unfold in H.
    destruct (Ocr.startCamera_try env c) as [[] c1|e c1|c1] eqn:E.
    + apply ocr_try_returns in E as (?&?&?&?&?&?&?&?&?&->).
      left. by inversion H.
    + rewrite ocr_catch in H. inversion H; subst. right. split; [done|].
      simpl. eauto.
    + discriminate.
Qed.

Lemma start_scanning_or_error_witness :
  (isScanning (state_of (Ocr.startCamera camera_ok init)) = true /\
   error (state_of (Ocr.startCamera camera_ok init)) = None) \/
  (isScanning (state_of (Ocr.startCamera camera_ok init)) = false /\
   exists m, error (state_of (Ocr.startCamera camera_ok init))
             = Some ("Error accessing camera: " +:+ m)).
Proof.
  apply (start_scanning_or_error camera_ok init). right. reflexivity.
Defined.

Lemma part000_start_succeeds_iff_witness :
  Part000.startCamera camera_ok mounted
  = Returned tt
      (mkComponent true false None "" [] None
         (Some (mkVideo (Some 0) 1280 720)) (Some 0) [[mkTrack "video" live]]) /\
  isScanning
    (mkComponent true false None "" [] None
       (Some (mkVideo (Some 0) 1280 720)) (Some 0) [[mkTrack "video" live]]) = true.
Proof.
  apply (part000_start_succeeds_iff camera_ok mounted).
  exists ["video"], (mkVideo None 0 0), 120%N, 1280%N, 720%N.
  repeat split.
Defined.

Lemma ocr_start_succeeds_iff_witness :
  Ocr.startCamera camera_ok mounted
  = Returned tt
      (mkComponent true false None "" [] None
         (Some (mkVideo (Some 0) 1280 720)) (Some 0) [[mkTrack "video" live]]) /\
  isScanning
    (mkComponent true false None "" [] None
       (Some (mkVideo (Some 0) 1280 720)) (Some 0) [[mkTrack "video" live]]) = true.
Proof.
  apply (ocr_start_succeeds_iff camera_ok mounted).
  exists ["video"], (mkVideo None 0 0), 120%N, 1280%N, 720%N.
  repeat split.
Defined.

Section StartFailures.

Lemma stopTracks_length (s : nat) (h : list (list MediaStreamTrack)) :
  length (stopTracks s h) = length h.
Proof. unfold stopTracks. by rewrite length_alter. Qed.

Lemma part000_catch_store (e : Exn) (c1 c' : Component) :
  Part000.startCamera_catch e c1 = Returned tt c' ->
  length (streams c') = length (streams c1) /\ readings c' = readings c1.
Proof.
  unfold Part000.startCamera_catch, Part000.releaseTracks, bind_srcObject.
  unfold_js.
  destruct c1 as [sc pr ci oc rs er [v|] [s0|] st]; simpl; intros [= <-]; simpl;
    rewrite ?stopTracks_length; done.
Qed.

End StartFailures.

(** X13: a start of the second copy that fails before a stream is handed
    out, because the camera API is missing, or else because the page is not
    secure, or because [getUserMedia] rejects, asks for no stream: the store
    of streams keeps its size, the message is the one of that failure (the
    missing API first), the readings are kept and the session ends idle with
    nothing holding the camera. *)
Theorem part000_fails_before_stream (env : StartEnv) (c : Component) (e : Exn) :
  (Part000.apiMissing env = true /\
   e = Error "Camera API is not supported in this browser") \/
  (Part000.apiMissing env = false /\ Part000.insecure env = true /\
   e = Error "Camera access requires HTTPS (except on localhost)") \/
  (Part000.insecure env = false /\ mediaDevices env = Some (Rejected e)) ->
  exists c', Part000.startCamera env c = Returned tt c' /\
    error c' = Some (Part000.errorMessage e) /\
    length (streams c') = length (streams c) /\
    readings c' = readings c /\
    is_idle c' /\
    (no_orphan c -> active_streams c' = []).
Proof.
  intros H.
  assert (Htry : exists c1, Part000.startCamera_try env c = Threw e c1 /\
            length (streams c1) = length (streams c) /\ readings c1 = readings c).
  { unfold Part000.startCamera_try, getUserMedia, allocate, Part000.apiMissing in *.
    unfold_js.
    destruct c as [sc pr ci oc rs er vr [s0|] st];
      destruct H as [[Ha ->]|[(Ha & Hs & ->)|[Hs Hm]]];
      destruct (mediaDevices env) as [[k|e'|]|]; simplify_eq;
      rewrite ?Hs; simpl; eexists; (split; [reflexivity|]); simpl;
      rewrite ?stopTracks_length; done. }
  destruct Htry as (c1 & Htry & Hlen & Hrs).
  destruct (part000_catch e c1) as (c' & Hc & Hi & He & _ & _ & Hn).
  destruct (part000_catch_store e c1 c' Hc) as [Hl Hr].
  exists c'. rewrite part000_start_unfold, Htry.
  split; [done|]. split; [done|]. split; [congruence|]. split; [congruence|].
  split; [done|]. intros Hno. apply Hn.
  pose proof (part000_try_no_orphan env c Hno) as H1. by rewrite Htry in H1.
Qed.

Lemma part000_fails_before_stream_witness :
  exists c',
    Part000.startCamera
      (mkStartEnv (Some (Rejected (mkExn (Some "NotAllowedError") (Some "Permission denied"))))
         (mkExn None None) "https:" "example.org" Silence Unsettled)
      scanning_ready = Returned tt c' /\
    error c' = Some "Error accessing camera: Camera permission denied. Please allow camera access." /\
    length (streams c') = 1 /\
    readings c' = [] /\
    is_idle c' /\
    (no_orphan scanning_ready -> active_streams c' = []).
Proof.
  apply (part000_fails_before_stream
           (mkStartEnv (Some (Rejected (mkExn (Some "NotAllowedError") (Some "Permission denied"))))
              (mkExn None None) "https:" "example.org" Silence Unsettled)
           scanning_ready
           (mkExn (Some "NotAllowedError") (Some "Permission denied"))).
  right; right. split; reflexivity.
Defined.



Section OcrStreams.

(** The store of streams after a start of [src/ocr.js]: the store before,
    with the new stream at the end when [getUserMedia] resolved. *)
Lemma ocr_start_store (env : StartEnv) (c : Component) :
  streams (state_of (Ocr.startCamera env c))
  = match mediaDevices env with
    | Some (Resolved kinds) => streams c ++ [map (fun k => mkTrack k live) kinds]
    | _ => streams c
    end.
Proof.
  unfold Ocr.startCamera, Ocr.startCamera_try, Ocr.startCamera_catch,
    getUserMedia, allocate, Ocr.awaitMetadata, newStream.
  unfold_js.
  destruct c as [sc pr ci oc rs er vr sr st].
  destruct (mediaDevices env) as [[kinds|e|]|]; simpl; try done.
  destruct vr as [v|]; simpl; [|done].
  destruct (Ocr.firstFrame (first_event env)) as [[t [w h]]|]; simpl; [|done].
  destruct (play env); simpl; done.
Qed.

(** Each start of [src/ocr.js] whose [getUserMedia] resolves with a track
    adds one stream holding the camera. *)
Lemma ocr_start_adds_stream (env : StartEnv) (c : Component) (kinds : list string) :
  mediaDevices env = Some (Resolved kinds) -> kinds <> [] ->
  active_streams (state_of (Ocr.startCamera env c))
  = active_streams c ++ [length (streams c)].
Proof.
  intros Hm Hk. unfold active_streams. rewrite ocr_start_store, Hm.
  rewrite active_from_snoc, new_tracks_active by done. done.
Qed.

End OcrStreams.

(** X15: a start of [src/ocr.js] never stops a track: every stream that
    held the camera before still holds it afterwards, however the start
    ends, and each start whose [getUserMedia] resolves with a track adds one
    more stream holding the camera. *)
Theorem ocr_start_never_releases (env : StartEnv) (c : Component) :
  (forall s, holds_camera (streams c) s ->
     holds_camera (streams (state_of (Ocr.startCamera env c))) s) /\
  (forall kinds, mediaDevices env = Some (Resolved kinds) -> kinds <> [] ->
     active_streams (state_of (Ocr.startCamera env c))
     = active_streams c ++ [length (streams c)]).
Proof.
  split.
  - intros s (ms & Hl & Ha). rewrite ocr_start_store.
    destruct (mediaDevices env) as [[kinds|e|]|]; try (by exists ms).
    exists ms. split; [|done]. rewrite lookup_app_l; [done|].
    by apply lookup_lt_Some in Hl.
  - intros kinds Hm Hk. by apply (ocr_start_adds_stream env c kinds).
Qed.

Lemma ocr_start_never_releases_witness :
  active_streams (state_of (Ocr.startCamera camera_play_rejected scanning_ready))
  = [0; 1].
Proof.
  destruct (ocr_start_never_releases camera_play_rejected scanning_ready) as [_ H].
  apply (H ["video"]); [reflexivity|discriminate].
Defined.

(** * The rendered page *)

Section Page.

(** Without a mounted preview a start cannot end scanning, in either
    copy. *)
Lemma start_unmounted (env : StartEnv) (c : Component) :
  at_rest c ->
  (isScanning (state_of (Part000.startCamera env c)) = false /\
   isProcessing (state_of (Part000.startCamera env c)) = false /\
   videoRef (state_of (Part000.startCamera env c)) = None /\
   readings (state_of (Part000.startCamera env c)) = readings c) /\
  (isScanning (state_of (Ocr.startCamera env c)) = false /\
   isProcessing (state_of (Ocr.startCamera env c)) = false /\
   videoRef (state_of (Ocr.startCamera env c)) = None /\
   readings (state_of (Ocr.startCamera env c)) = readings c).
Proof.
  intros (Hs & Hp & Hv).
  destruct c as [sc pr ci oc rs er vr sr st]. simpl in *. subst.
  split.
  - unfold Part000.startCamera, Part000.startCamera_try, Part000.startCamera_catch,
      getUserMedia, allocate, newStream, bind_srcObject, Part000.releaseTracks.
    unfold_js.
    destruct (Part000.apiMissing env), (Part000.insecure env),
      (mediaDevices env) as [[kinds|e|]|], sr as [s0|]; simpl; repeat split.
  - unfold Ocr.startCamera, Ocr.startCamera_try, Ocr.startCamera_catch,
      getUserMedia, allocate, newStream.
    unfold_js.
    destruct (mediaDevices env) as [[kinds|e|]|]; simpl; repeat split.
Qed.

Lemma commit_at_rest (c : Component) :
  isScanning c = false -> isProcessing c = false ->
  at_rest (commit c) /\ readings (commit c) = readings c.
Proof.
  intros Hs Hp. unfold commit. rewrite Hs. by destruct c.
Qed.

Lemma click_at_rest (start : StartEnv -> M unit) (capture : CaptureRun -> M unit)
    (stop : Component -> Component) (k : Click) (c : Component) :
  (forall env c0, at_rest c0 ->
     isScanning (state_of (start env c0)) = false /\
     isProcessing (state_of (start env c0)) = false /\
     videoRef (state_of (start env c0)) = None /\
     readings (state_of (start env c0)) = readings c0) ->
  at_rest c ->
  at_rest (click start capture stop Ocr.deleteReading k c) /\
  length (readings (click start capture stop Ocr.deleteReading k c))
  <= length (readings c).
Proof.
  intros Hstart Hc. pose proof Hc as (Hs & Hp & Hv).
  destruct k as [env|env| |i]; simpl.
  - unfold startEnabled. rewrite Hs, Hp. simpl.
    destruct (Hstart env c Hc) as (Hs' & Hp' & _ & Hr').
    destruct (commit_at_rest _ Hs' Hp') as [Hrest Hr]. split; [done|].
    rewrite Hr, Hr'. done.
  - unfold scanControlsEnabled. rewrite Hs. simpl. done.
  - unfold scanControlsEnabled. rewrite Hs. simpl. done.
  - case_bool_decide; [|done].
    assert (Hs' : isScanning (Ocr.deleteReading i c) = false) by done.
    assert (Hp' : isProcessing (Ocr.deleteReading i c) = false) by done.
    destruct (commit_at_rest _ Hs' Hp') as [Hrest Hr]. split; [done|].
    rewrite Hr. simpl. apply length_filter.
Qed.

End Page.

(** X16: driven through the controls it renders, neither copy ever scans:
    the preview element is only rendered while scanning, so every start
    finds no element and fails, the capture and stop buttons never appear,
    and no reading is ever added.  With a camera that hands out a stream,
    the second copy shows [Video element not found] and releases the stream,
    while [src/ocr.js] shows [Video element not initialized] and keeps the
    stream live. *)
Theorem page_never_scans (ks : list Click) (c : Component) :
  at_rest c ->
  (at_rest (clicks Part000.startCamera Part000.captureAndProcess
              Part000.stopCamera Part000.deleteReading ks c) /\
   length (readings (clicks Part000.startCamera Part000.captureAndProcess
                       Part000.stopCamera Part000.deleteReading ks c))
   <= length (readings c)) /\
  (at_rest (clicks Ocr.startCamera Ocr.captureAndProcess
              Ocr.stopCamera Ocr.deleteReading ks c) /\
   length (readings (clicks Ocr.startCamera Ocr.captureAndProcess
                       Ocr.stopCamera Ocr.deleteReading ks c))
   <= length (readings c)) /\
  (forall env kinds,
     mediaDevices env = Some (Resolved kinds) -> Part000.insecure env = false ->
     error (state_of (Part000.startCamera env c))
     = Some "Error accessing camera: Video element not found" /\
     error (state_of (Ocr.startCamera env c))
     = Some "Error accessing camera: Video element not initialized" /\
     (kinds <> [] ->
      length (streams c) ∈ active_streams (state_of (Ocr.startCamera env c)))).
Proof.
  intros Hc. split; [|split].
  - revert c Hc. induction ks as [|k ks IH]; intros c Hc; simpl; [done|].
    destruct (click_at_rest Part000.startCamera Part000.captureAndProcess
                Part000.stopCamera k c) as [Hrest Hlen]; [|done|].
    { intros env c0 H0. by destruct (start_unmounted env c0 H0) as [? _]. }
    destruct (IH _ Hrest) as [Hr Hl]. split; [done|].
    change Part000.deleteReading with Ocr.deleteReading in *. lia.
  - revert c Hc. induction ks as [|k ks IH]; intros c Hc; simpl; [done|].
    destruct (click_at_rest Ocr.startCamera Ocr.captureAndProcess
                Ocr.stopCamera k c) as [Hrest Hlen]; [|done|].
    { intros env c0 H0. by destruct (start_unmounted env c0 H0) as [_ ?]. }
    destruct (IH _ Hrest) as [Hr Hl]. split; [done|]. lia.
  - intros env kinds Hm Hsec. destruct Hc as (Hs & Hp & Hv).
    split; [|split].
    + unfold Part000.startCamera, Part000.startCamera_try, Part000.startCamera_catch,
        getUserMedia, allocate, newStream, Part000.apiMissing, bind_srcObject,
        Part000.releaseTracks.
      unfold_js. rewrite Hm, Hsec.
      destruct c as [sc pr ci oc rs er vr [s0|] st]; simpl in *; subst; done.
    + unfold Ocr.startCamera, Ocr.startCamera_try, Ocr.startCamera_catch,
        getUserMedia, allocate, newStream.
      unfold_js. rewrite Hm.
      destruct c as [sc pr ci oc rs er vr sr st]; simpl in *; subst; done.
    + intros Hk.
      rewrite (ocr_start_adds_stream env c kinds Hm Hk).
      apply elem_of_app. right. apply list_elem_of_here.
Qed.

Lemma page_never_scans_witness :
  at_rest (clicks Ocr.startCamera Ocr.captureAndProcess Ocr.stopCamera
             Ocr.deleteReading
             [ClickStart camera_ok; ClickCapture capture_42; ClickStart camera_ok]
             init) /\
  length (readings
            (clicks Ocr.startCamera Ocr.captureAndProcess Ocr.stopCamera
               Ocr.deleteReading
               [ClickStart camera_ok; ClickCapture capture_42; ClickStart camera_ok]
               init)) <= length (readings init).
Proof.
  destruct (page_never_scans
              [ClickStart camera_ok; ClickCapture capture_42; ClickStart camera_ok]
              init) as (_ & H & _).
  - repeat split.
  - exact H.
Defined.

(** * The session of the second copy *)



(** X18: in the second copy a start whose [try] block throws, at whatever
    step, returns with the message built from what was thrown, the session
    idle and no stream holding the camera. *)
Theorem part000_failed_start_idle (env : StartEnv) (c c1 : Component) (e : Exn) :
  no_orphan c ->
  Part000.startCamera_try env c = Threw e c1 ->
  exists c', Part000.startCamera env c = Returned tt c' /\
    is_idle c' /\ error c' = Some (Part000.errorMessage e) /\
    readings c' = readings c1 /\
    active_streams c' = [].
Proof.
  intros H Htry.
  destruct (part000_failed_start_releases env c c1 e H Htry)
    as (c' & Hc & Hi & He & Hn).
  exists c'. repeat (split; [done|]). split; [|done].
  rewrite part000_start_unfold, Htry in Hc.
  by destruct (part000_catch_store e c1 c' Hc).
Qed.

Lemma part000_failed_start_idle_witness :
  exists c', Part000.startCamera camera_play_rejected mounted = Returned tt c' /\
    is_idle c' /\
    error c' = Some (Part000.errorMessage
                       (mkExn (Some "AbortError")
                          (Some "The play() request was interrupted"))) /\
    readings c'
    = readings (mkComponent false false None "" [] None
                  (Some (mkVideo (Some 0) 1280 720)) (Some 0)
                  [[mkTrack "video" live]]) /\
    active_streams c' = [].
Proof.
  apply (part000_failed_start_idle camera_play_rejected mounted
           (mkComponent false false None "" [] None
              (Some (mkVideo (Some 0) 1280 720)) (Some 0)
              [[mkTrack "video" live]])
           (mkExn (Some "AbortError") (Some "The play() request was interrupted"))).
  - intros s Hs. by apply elem_of_nil in Hs.
  - reflexivity.
Defined.

(** X19: in the second copy the wait for the first frame settles within
    5000 ms; when the stream was acquired and bound and neither metadata nor
    an error event arrives before that, the start fails with the message
    [Video stream timed out] and ends idle, and this message differs from the
    ones for a denied permission and for a missing camera. *)
Theorem part000_first_frame_timeout (env : StartEnv) (c : Component)
    (kinds : list string) (v : Video) :
  mediaDevices env = Some (Resolved kinds) ->
  Part000.insecure env = false ->
  videoRef c = Some v ->
  (fst (Part000.firstFrame (first_event env)) <= 5000)%N /\
  ((forall t w h, first_event env = LoadedMetadata t w h -> (5000 <= t)%N) ->
   (forall t, first_event env = ErrorEvent t -> (5000 <= t)%N) ->
   exists c', Part000.startCamera env c = Returned tt c' /\
     error c' = Some "Error accessing camera: Video stream timed out" /\
     is_idle c') /\
  (forall e,
     Part000.name_is e "NotAllowedError" = true \/
     Part000.name_is e "NotFoundError" = true ->
     Part000.errorMessage e <> "Error accessing camera: Video stream timed out").
Proof.
  intros Hm Hsec Hv.
  destruct (part000_first_frame_bounded (first_event env)) as (Hb & _ & Ht).
  split; [exact Hb|]. split.
  - intros Hl He. apply (part000_start_times_out env c kinds v); try done.
    by apply Ht.
  - intros e He Heq. by apply (part000_timeout_message_distinct e He).
Qed.

Lemma part000_first_frame_timeout_witness :
  exists c', Part000.startCamera camera_silent mounted = Returned tt c' /\
    error c' = Some "Error accessing camera: Video stream timed out" /\
    is_idle c'.
Proof.
  destruct (part000_first_frame_timeout camera_silent mounted ["video"]
              (mkVideo None 0 0) eq_refl eq_refl eq_refl) as (_ & H & _).
  apply H; intros; discriminate.
Defined.


(** X21: no camera operation touches the stored readings: starts of either
    copy, however they end, stops, the support check and the unmount cleanup
    all leave the list as it was. *)
Theorem readings_survive_camera (env : StartEnv) (senv : SupportEnv) (c : Component) :
  readings (state_of (Part000.startCamera env c)) = readings c /\
  readings (state_of (Ocr.startCamera env c)) = readings c /\
  readings (Part000.stopCamera c) = readings c /\
  readings (Ocr.stopCamera c) = readings c /\
  readings (state_of (checkCameraSupport senv c)) = readings c /\
  readings (unmountCleanup c) = readings c.
Proof.
  destruct c as [sc pr ci oc rs er vr sr st].
  split; [|split; [|split; [|split; [|split]]]].
  - unfold Part000.startCamera, Part000.startCamera_try, Part000.startCamera_catch,
      getUserMedia, allocate, newStream, bind_srcObject, Part000.releaseTracks,
      Part000.awaitMetadata, set_dimensions.
    unfold_js.
    destruct (Part000.apiMissing env), (Part000.insecure env),
      (mediaDevices env) as [[kinds|e|]|], sr as [s0|], vr as [v|]; simpl;
      try done;
      destruct (Part000.firstFrame (first_event env)) as [t [e|[w h]]]; simpl;
      try done;
      destruct (play env); done.
  - unfold Ocr.startCamera, Ocr.startCamera_try, Ocr.startCamera_catch,
      getUserMedia, allocate, newStream, bind_srcObject, Ocr.awaitMetadata,
      set_dimensions.
    unfold_js.
    destruct (mediaDevices env) as [[kinds|e|]|], vr as [v|]; simpl; try done;
      destruct (Ocr.firstFrame (first_event env)) as [[t [w h]]|]; simpl;
      try done;
      destruct (play env); done.
  - apply ocr_stop_readings.
  - apply ocr_stop_readings.
  - unfold checkCameraSupport. unfold_js.
    destruct (cameraApi senv), (pageInsecure senv),
      (enumerateDevices senv) as [devices|e|]; simpl; try done.
    destruct (Nat.eqb _ 0); done.
  - unfold unmountCleanup. by destruct sr.
Qed.

(** * The first-frame wait and the order of the readings *)




Section Scans.





End Scans.



